(** * Design-pattern demos: Composite tree and Observer registry

    Shallow embedding of [src/Composite/composite.py] and
    [src/Observer/observer.py].

    Python objects are identified by an address ([Obj]); the attributes the
    code reads and writes live in an explicit store that every method takes
    and gives back.  A method call yields a [Res]: a normal return, a raised
    exception, or [Fuel] when the bound on the unfolding of a recursion or a
    loop was too small (the bound is a device of the model, not of the code).
    A raising call gives the store back as it was at the [raise]. *)

From stdpp Require Import gmap list relations strings.
From Stdlib Require Import ZArith DecimalString.

Local Open Scope string_scope.
Local Open Scope list_scope.

Abbreviation Obj := positive (only parsing).

(** Exceptions the modelled code can raise.  [ObjetoInexistente] is the
    model's answer to an address that names no allocated object, which no
    Python program can produce. *)
Inductive Exc : Set :=
| ValueError
| TypeError
| AttributeError
| ObjetoInexistente.

Inductive Res (A : Type) : Type :=
| Ok (a : A)
| Raise (e : Exc)
| Fuel.
Arguments Ok {A} a.
Arguments Raise {A} e.
Arguments Fuel {A}.

(** [list.remove(x)]: drops the first entry equal to [x]; [None] stands for
    the [ValueError] of the host list when there is no such entry.  Neither
    [Component] nor [Observador] defines [__eq__], so equality of entries is
    identity of objects. *)
Fixpoint list_remove_first (x : Obj) (l : list Obj) : option (list Obj) :=
  match l with
  | [] => None
  | y :: l' =>
      if decide (y = x) then Some l'
      else match list_remove_first x l' with
           | Some r => Some (y :: r)
           | None => None
           end
  end.

(** ** composite.py *)
Module Composite.

(** Value of the [_parent] attribute once it has been assigned. *)
Inductive Ref : Set :=
| PyNone
| Ptr (o : Obj).

(** The two concrete classes; a [Composite] instance carries the
    [_children] list its [__init__] creates, a [Leaf] has no such
    attribute. *)
Inductive Classe : Set :=
| Leaf
| Composite (_children : list Obj).

(** An instance: its class and its [_parent] attribute, [None] while the
    attribute has never been assigned (no [__init__] sets it). *)
Record Component : Set := mkComponent {
  classe : Classe;
  _parent : option Ref
}.

Abbreviation Heap := (gmap Obj Component) (only parsing).

(** [Leaf()] and [Composite()]: a fresh address. *)
Definition novo (c : Classe) (h : Heap) : Obj * Heap :=
  let o := fresh (dom h) in (o, <[o := mkComponent c None]> h).
Definition novo_Leaf (h : Heap) : Obj * Heap := novo Leaf h.
Definition novo_Composite (h : Heap) : Obj * Heap := novo (Composite []) h.

(** [self._children] of a composite; a leaf has none. *)
Definition filhos (h : Heap) (o : Obj) : list Obj :=
  match h !! o with
  | Some ob => match classe ob with
               | Composite cs => cs
               | Leaf => []
               end
  | None => []
  end.

(** The [parent] property: getter and setter. *)
Definition parent (o : Obj) (h : Heap) : Res Ref * Heap :=
  match h !! o with
  | None => (Raise ObjetoInexistente, h)
  | Some ob => match _parent ob with
               | None => (Raise AttributeError, h)
               | Some r => (Ok r, h)
               end
  end.

Definition set_parent (o : Obj) (r : Ref) (h : Heap) : Heap :=
  alter (fun ob => mkComponent (classe ob) (Some r)) o h.

Definition set_children (o : Obj) (cs : list Obj) (h : Heap) : Heap :=
  alter (fun ob => mkComponent (Composite cs) (_parent ob)) o h.

(** [add]: [pass] in [Component] (inherited by [Leaf]); [Composite]
    appends to [_children], then assigns the argument's [parent]. *)
Definition add (self component : Obj) (h : Heap) : Res unit * Heap :=
  match h !! self, h !! component with
  | Some ob, Some _ =>
      match classe ob with
      | Leaf => (Ok tt, h)
      | Composite cs =>
          let h1 := set_children self (cs ++ [component]) h in
          (Ok tt, set_parent component (Ptr self) h1)
      end
  | _, _ => (Raise ObjetoInexistente, h)
  end.

(** [remove]: [pass] in [Component]; [Composite] calls
    [self._children.remove(component)], which raises before the next line
    runs when the argument is not in the list, then assigns [None] to the
    argument's [parent]. *)
Definition remove (self component : Obj) (h : Heap) : Res unit * Heap :=
  match h !! self, h !! component with
  | Some ob, Some _ =>
      match classe ob with
      | Leaf => (Ok tt, h)
      | Composite cs =>
          match list_remove_first component cs with
          | None => (Raise ValueError, h)
          | Some cs' =>
              let h1 := set_children self cs' h in
              (Ok tt, set_parent component PyNone h1)
          end
      end
  | _, _ => (Raise ObjetoInexistente, h)
  end.

Definition is_composite (self : Obj) (h : Heap) : Res bool :=
  match h !! self with
  | None => Raise ObjetoInexistente
  | Some ob => match classe ob with
               | Leaf => Ok false
               | Composite _ => Ok true
               end
  end.

(** The loop of [Composite.operation]: [results.append(child.operation())]
    for each child in list order; the first child that does not return
    ends the loop. *)
Fixpoint coletar (op : Obj -> Res string) (cs : list Obj) : Res (list string) :=
  match cs with
  | [] => Ok []
  | c :: cs' =>
      match op c with
      | Ok r => match coletar op cs' with
                | Ok rs => Ok (r :: rs)
                | Raise e => Raise e
                | Fuel => Fuel
                end
      | Raise e => Raise e
      | Fuel => Fuel
      end
  end.

(** [operation]; [fuel] bounds the depth of the recursion through the
    children ([Fuel] is the answer when the bound is too small; in CPython
    a recursion that no bound satisfies ends in [RecursionError], never in
    a string).  The method only reads the store. *)
Fixpoint operation (fuel : nat) (h : Heap) (self : Obj) : Res string :=
  match fuel with
  | O => Fuel
  | S f =>
      match h !! self with
      | None => Raise ObjetoInexistente
      | Some ob =>
          match classe ob with
          | Leaf => Ok "Folha"
          | Composite cs =>
              match coletar (operation f h) cs with
              | Ok results => Ok ("Galho(" +:+ String.concat "+" results +:+ ")")
              | Raise e => Raise e
              | Fuel => Fuel
              end
          end
      end
  end.

(** [client_code]: the text it prints, the result of [operation] after
    "RESULTADO: ". *)
Definition client_code (fuel : nat) (component : Obj) (h : Heap) : Res string :=
  match operation fuel h component with
  | Ok r => Ok ("RESULTADO: " +:+ r)
  | Raise e => Raise e
  | Fuel => Fuel
  end.

(** [client_code2]: adds only when the first component is a composite,
    then prints as [client_code] does. *)
Definition client_code2 (fuel : nat) (component1 component2 : Obj) (h : Heap)
  : Res string * Heap :=
  match is_composite component1 h with
  | Ok true =>
      match add component1 component2 h with
      | (Ok _, h') => (client_code fuel component1 h', h')
      | (Raise e, h') => (Raise e, h')
      | (Fuel, h') => (Fuel, h')
      end
  | Ok false => (client_code fuel component1 h, h)
  | Raise e => (Raise e, h)
  | Fuel => (Fuel, h)
  end.

(** *** Sequences of calls *)
Inductive Op : Set :=
| Add (self component : Obj)
| Remove (self component : Obj).

Definition exec_op (op : Op) (h : Heap) : Heap :=
  match op with
  | Add b c => snd (add b c h)
  | Remove b c => snd (remove b c h)
  end.

Definition exec (ops : list Op) (h : Heap) : Heap :=
  foldl (fun h op => exec_op op h) h ops.

(** [add_all b cs]: [b.add(c)] for each [c] of [cs], in order. *)
Definition add_all (b : Obj) (cs : list Obj) (h : Heap) : Heap :=
  exec (map (Add b) cs) h.

(** *** The child relation and its invariants *)

(** [filho h c b]: [c] is an entry of [b._children]. *)
Definition filho (h : Heap) (c b : Obj) : Prop := c ∈ filhos h b.

(** [ancestral h a o]: [a] is reached from [o] by one or more steps from a
    child to the composite that lists it. *)
Definition ancestral (h : Heap) (a o : Obj) : Prop := tc (filho h) o a.

Definition aciclico (h : Heap) : Prop := ∀ o, ¬ ancestral h o o.

Definition bem_fundado (h : Heap) : Prop := ∀ o, Acc (filho h) o.

(** Every listed child is an allocated object. *)
Definition fechado (h : Heap) : Prop :=
  ∀ b c, filho h c b → is_Some (h !! c).

(** A sequence of calls in which no [add] hands a composite itself or one
    of its ancestors: at each [Add b c] whose receiver [b] is a composite,
    [b] is not reachable from [c] downwards (in zero or more child steps).
    An [add] on a leaf adds nothing and is under no condition, and neither
    is any [remove]. *)
Fixpoint ops_seguras (ops : list Op) (h : Heap) : Prop :=
  match ops with
  | [] => True
  | Add b c :: r =>
      (is_composite b h = Ok true → ¬ rtc (filho h) b c)
      ∧ ops_seguras r (exec_op (Add b c) h)
  | Remove b c :: r => ops_seguras r (exec_op (Remove b c) h)
  end.

(** *** The driver's tree *)
Definition demo : Obj * Obj * Heap :=
  let '(simples, h) := novo_Leaf ∅ in
  let '(arvore, h) := novo_Composite h in
  let '(galho1, h) := novo_Composite h in
  let '(l1, h) := novo_Leaf h in
  let h := exec_op (Add galho1 l1) h in
  let '(l2, h) := novo_Leaf h in
  let h := exec_op (Add galho1 l2) h in
  let '(galho2, h) := novo_Composite h in
  let '(l3, h) := novo_Leaf h in
  let h := exec_op (Add galho2 l3) h in
  let h := exec_op (Add arvore galho1) h in
  let h := exec_op (Add arvore galho2) h in
  (simples, arvore, h).

(** *** Small stores used in the examples *)

(** Object 1 is a leaf, objects 2 and 3 are composites without children. *)
Definition folha_e_galhos : Heap :=
  snd (novo_Composite (snd (novo_Composite (snd (novo_Leaf ∅))))).

(** Object 1 is a composite without children. *)
Definition so_galho : Heap := snd (novo_Composite ∅).

End Composite.

(** ** observer.py *)
Module Observer.

(** The store.  [_observadores] is the one list object that the class body
    of [SujeitoConcreto] binds to the class attribute of that name: no
    method assigns [self._observadores], so for every instance the
    attribute lookup ends at the class and yields this list, which
    [append] and [remove] change in place.  [instancias] holds the
    instances of [SujeitoConcreto] with their own [_estado] attribute,
    [None] until [executar_logica_principal] assigns it.  [saida] is what
    has been printed. *)
Record Mundo : Type := mkMundo {
  _observadores : list Obj;
  instancias : gmap Obj (option Z);
  saida : list string
}.

Definition imprimir (linha : string) (w : Mundo) : Mundo :=
  mkMundo (_observadores w) (instancias w) (saida w ++ [linha]).

Definition com_observadores (l : list Obj) (w : Mundo) : Mundo :=
  mkMundo l (instancias w) (saida w).

(** [SujeitoConcreto()]: the class has no [__init__]; the new instance has
    no attribute of its own. *)
Definition novo_Sujeito (w : Mundo) : Obj * Mundo :=
  let s := fresh (dom (instancias w)) in
  (s, mkMundo (_observadores w) (<[s := None]> (instancias w)) (saida w)).

(** [self._estado]: the instance attribute when assigned, else the class
    attribute, which is Python's [None] (here [None] too). *)
Definition estado_de (w : Mundo) (self : Obj) : option Z :=
  match instancias w !! self with
  | Some (Some n) => Some n
  | _ => None
  end.

(** [self._observadores]: always the list of the class. *)
Definition observadores_de (w : Mundo) (self : Obj) : list Obj :=
  _observadores w.

Definition adicionar (self observador : Obj) (w : Mundo) : Res unit * Mundo :=
  let w := imprimir "Sujeito: Observador adicionado." w in
  (Ok tt, com_observadores (observadores_de w self ++ [observador]) w).

Definition remover (self observador : Obj) (w : Mundo) : Res unit * Mundo :=
  match list_remove_first observador (observadores_de w self) with
  | None => (Raise ValueError, w)
  | Some l => (Ok tt, imprimir "Sujeito: Observador removido." (com_observadores l w))
  end.

(** The classes of observers: the two of the file, and any other subclass
    of the abstract [Observador], given by its [atualizar] (receiver first,
    then the subject). *)
Inductive Observador : Type :=
| ObservadorConcretoA
| ObservadorConcretoB
| Outro (atualizar : Obj -> Obj -> Mundo -> Res unit * Mundo).

(** [sujeito._estado < 3]: ordering [None] against an [int] raises. *)
Definition atualizar_A (sujeito : Obj) (w : Mundo) : Res unit * Mundo :=
  match estado_de w sujeito with
  | None => (Raise TypeError, w)
  | Some n =>
      if (n <? 3)%Z
      then (Ok tt, imprimir "Observador A: Reagiu ao evento (estado menor que 3)." w)
      else (Ok tt, w)
  end.

(** [sujeito._estado == 0 or sujeito._estado >= 2]: on [None] the equality
    is [False] and the ordering then raises. *)
Definition atualizar_B (sujeito : Obj) (w : Mundo) : Res unit * Mundo :=
  match estado_de w sujeito with
  | None => (Raise TypeError, w)
  | Some n =>
      if ((n =? 0)%Z || (n >=? 2)%Z)%bool
      then (Ok tt, imprimir "Observador B: Reagiu ao evento (estado é 0 ou maior/igual a 2)." w)
      else (Ok tt, w)
  end.

Definition concreto (c : Observador) : bool :=
  match c with
  | ObservadorConcretoA | ObservadorConcretoB => true
  | Outro _ => false
  end.

(** One call [observador.atualizar(sujeito)] as [notificar] makes it: the
    subject passed, and the state it has at that moment. *)
Record Visita : Type := mkVisita {
  observador : Obj;
  sujeito_passado : Obj;
  estado_lido : option Z
}.

Section Despacho.

(** The class of each observer object. *)
Variable classe_de : Obj -> Observador.

Definition atualizar (self sujeito : Obj) (w : Mundo) : Res unit * Mundo :=
  match classe_de self with
  | ObservadorConcretoA => atualizar_A sujeito w
  | ObservadorConcretoB => atualizar_B sujeito w
  | Outro f => f self sujeito w
  end.

(** [for observador in self._observadores: observador.atualizar(self)].
    The list iterator keeps an index into the live list: each round it
    stops if the index is past the end, else it takes the entry at the
    index and advances.  [fuel] bounds the number of calls; the trace of
    the calls made is returned along with the store. *)
Fixpoint notificar_laco (fuel i : nat) (self : Obj) (w : Mundo)
    (tr : list Visita) : Res unit * Mundo * list Visita :=
  match observadores_de w self !! i with
  | None => (Ok tt, w, tr)
  | Some o =>
      match fuel with
      | O => (Fuel, w, tr)
      | S f =>
          let tr := tr ++ [mkVisita o self (estado_de w self)] in
          match atualizar o self w with
          | (Ok _, w') => notificar_laco f (S i) self w' tr
          | (Raise e, w') => (Raise e, w', tr)
          | (Fuel, w') => (Fuel, w', tr)
          end
      end
  end.

Definition notificar (fuel : nat) (self : Obj) (w : Mundo)
  : Res unit * Mundo * list Visita :=
  notificar_laco fuel 0 self (imprimir "Sujeito: Notificando observadores..." w) [].

(** [executar_logica_principal]; [r] is the value [randrange(0, 10)]
    returns, an integer from 0 to 9. *)
Definition executar_logica_principal (fuel : nat) (r : Z) (self : Obj) (w : Mundo)
  : Res unit * Mundo * list Visita :=
  let w := imprimir (String (Ascii.ascii_of_nat 10) "Sujeito: Executando uma operação importante...") w in
  let w := mkMundo (_observadores w) (<[self := Some r]> (instancias w)) (saida w) in
  let w := imprimir ("Sujeito: Meu estado mudou para "
                     +:+ NilZero.string_of_int (Z.to_int r)) w in
  notificar fuel self w.

(** An observer whose [atualizar], on a subject [s] in state [e], returns
    and leaves the subscriber list and the state of [s] as they were. *)
Definition comportado (s : Obj) (e : option Z) (o : Obj) : Prop :=
  ∀ w, estado_de w s = e →
    ∃ w', atualizar o s w = (Ok tt, w')
          ∧ _observadores w' = _observadores w
          ∧ estado_de w' s = e.

End Despacho.

(** An observer that unsubscribes itself when notified:
    [def atualizar(self, sujeito): sujeito.remover(self)]. *)
Definition Desinscreve : Observador :=
  Outro (fun self sujeito w => remover sujeito self w).

(** *** Instances used below *)
Definition mundo_inicial : Mundo := mkMundo [] ∅ [].

(** Objects 10 and 11 are the driver's [observador_a] and [observador_b],
    object 12 unsubscribes itself. *)
Definition classes_demo (o : Obj) : Observador :=
  if decide (o = 10%positive) then ObservadorConcretoA
  else if decide (o = 12%positive) then Desinscreve
  else ObservadorConcretoB.

(** The driver up to the first [executar_logica_principal], with [r] the
    value drawn. *)
Definition demo (r : Z) : Res unit * Mundo * list Visita :=
  let '(sujeito, w) := novo_Sujeito mundo_inicial in
  let w := snd (adicionar sujeito 10%positive w) in
  let w := snd (adicionar sujeito 11%positive w) in
  executar_logica_principal classes_demo 2 r sujeito w.

(** Two subjects; the observer 10 is registered through the first only,
    then the second runs its logic, drawing [r]. *)
Definition demo_dois_sujeitos (r : Z) : Obj * Obj * (Res unit * Mundo * list Visita) :=
  let '(s1, w) := novo_Sujeito mundo_inicial in
  let '(s2, w) := novo_Sujeito w in
  let w := snd (adicionar s1 10%positive w) in
  (s1, s2, executar_logica_principal classes_demo 1 r s2 w).

(** A subject with state [n] and the subscribers [l]. *)
Definition mundo_com (l : list Obj) (n : Z) : Obj * Mundo :=
  let '(s, w) := novo_Sujeito mundo_inicial in
  (s, mkMundo l (<[s := Some n]> (instancias w)) []).

(** The driver before its first [executar_logica_principal]: both
    observers registered on a subject whose state was never assigned. *)
Definition demo_sem_estado : Obj * Mundo :=
  let '(sujeito, w) := novo_Sujeito mundo_inicial in
  let w := snd (adicionar sujeito 10%positive w) in
  let w := snd (adicionar sujeito 11%positive w) in
  (sujeito, w).

(** *** The lines of the output *)

(** What each concrete observer prints when it reacts. *)
Definition linha_A : string := "Observador A: Reagiu ao evento (estado menor que 3).".
Definition linha_B : string :=
  "Observador B: Reagiu ao evento (estado é 0 ou maior/igual a 2).".

(** What [executar_logica_principal] and the [notificar] it calls print
    before the first observer is called, [r] being the value drawn. *)
Definition cabecalho (r : Z) : list string :=
  [ String (Ascii.ascii_of_nat 10) "Sujeito: Executando uma operação importante...";
    "Sujeito: Meu estado mudou para " +:+ NilZero.string_of_int (Z.to_int r);
    "Sujeito: Notificando observadores..." ].

End Observer.

Example demo_arvore :
  let '(_, arvore, h) := Composite.demo in
  Composite.operation 3 h arvore = Ok "Galho(Galho(Folha+Folha)+Galho(Folha))".
Proof. vm_compute. reflexivity. Qed.

Example demo_observer_2 :
  Observer.saida (snd (fst (Observer.demo 2))) =
  [ "Sujeito: Observador adicionado."; "Sujeito: Observador adicionado.";
    String (Ascii.ascii_of_nat 10) "Sujeito: Executando uma operação importante...";
    "Sujeito: Meu estado mudou para 2";
    "Sujeito: Notificando observadores...";
    "Observador A: Reagiu ao evento (estado menor que 3).";
    "Observador B: Reagiu ao evento (estado é 0 ou maior/igual a 2)." ].
Proof. vm_compute. reflexivity. Qed.

(** * Properties *)

(** ** [list.remove] *)
Section ListRemove.

Lemma list_remove_first_None (x : Obj) (l : list Obj) :
  list_remove_first x l = None ↔ x ∉ l.
Proof.
  induction l as [|y l IH]; simpl.
  - split; [intros _; apply not_elem_of_nil | done].
  - destruct (decide (y = x)) as [->|Hne].
    + split; [done | intros H; exfalso; apply H; left].
    + destruct (list_remove_first x l) eqn:E.
      * split; [done|]. intros H. exfalso.
        assert (x ∉ l) as Hl by (intros ?; apply H; by right).
        apply IH in Hl. done.
      * split; [|done]. intros _ [->|Hin]%elem_of_cons; [done|].
        by apply (proj1 IH).
Qed.

Lemma list_remove_first_split (x : Obj) (l1 l2 : list Obj) :
  x ∉ l1 → list_remove_first x (l1 ++ x :: l2) = Some (l1 ++ l2).
Proof.
  induction l1 as [|y l1 IH]; simpl; intros Hnin.
  - by rewrite decide_True.
  - rewrite decide_False; [|intros ->; apply Hnin; left].
    rewrite IH; [done|]. intros ?; apply Hnin; by right.
Qed.

Lemma list_remove_first_Some (x : Obj) (l l' : list Obj) :
  list_remove_first x l = Some l' →
  ∃ l1 l2, l = l1 ++ x :: l2 ∧ (x ∉ l1) ∧ l' = l1 ++ l2.
Proof.
  revert l'. induction l as [|y l IH]; simpl; intros l' H; [done|].
  destruct (decide (y = x)) as [->|Hne].
  - exists [], l. simplify_eq. split_and!; [done | apply not_elem_of_nil | done].
  - destruct (list_remove_first x l) as [r|] eqn:E; [|done].
    simplify_eq. destruct (IH r eq_refl) as (l1 & l2 & -> & Hnin & ->).
    exists (y :: l1), l2. split_and!; [done| |done].
    intros [->|?]%elem_of_cons; done.
Qed.

Lemma list_remove_first_elem (x y : Obj) (l l' : list Obj) :
  list_remove_first x l = Some l' → y ∈ l' → y ∈ l.
Proof.
  intros H. apply list_remove_first_Some in H as (l1 & l2 & -> & _ & ->).
  rewrite !elem_of_app, elem_of_cons. tauto.
Qed.

End ListRemove.

(** ** The Composite tree *)
Section CompositeStore.
Import Composite.

Implicit Types (h : gmap Obj Component) (b c o x y : Obj).

Lemma lookup_set_parent h o r x :
  set_parent o r h !! x =
  if decide (o = x) then (λ ob, mkComponent (classe ob) (Some r)) <$> h !! x
  else h !! x.
Proof.
  unfold set_parent. destruct (decide (o = x)) as [->|Hne].
  - by rewrite lookup_alter_eq.
  - by rewrite lookup_alter_ne.
Qed.

Lemma lookup_set_children h o cs x :
  set_children o cs h !! x =
  if decide (o = x) then (λ ob, mkComponent (Composite cs) (_parent ob)) <$> h !! x
  else h !! x.
Proof.
  unfold set_children. destruct (decide (o = x)) as [->|Hne].
  - by rewrite lookup_alter_eq.
  - by rewrite lookup_alter_ne.
Qed.

Lemma filhos_set_parent h o r x : filhos (set_parent o r h) x = filhos h x.
Proof.
  unfold filhos. rewrite lookup_set_parent.
  case_decide; [|done]. by destruct (h !! x).
Qed.

Lemma filhos_set_children h o cs x :
  is_Some (h !! o) →
  filhos (set_children o cs h) x = if decide (o = x) then cs else filhos h x.
Proof.
  intros [ob Hob]. unfold filhos. rewrite lookup_set_children.
  case_decide; [|done]. subst. by rewrite Hob.
Qed.

Lemma is_Some_set_parent h o r x : is_Some (set_parent o r h !! x) ↔ is_Some (h !! x).
Proof. rewrite lookup_set_parent. case_decide; [|done]. by rewrite fmap_is_Some. Qed.

Lemma is_Some_set_children h o cs x :
  is_Some (set_children o cs h !! x) ↔ is_Some (h !! x).
Proof. rewrite lookup_set_children. case_decide; [|done]. by rewrite fmap_is_Some. Qed.

(** What a call of [add] does to the children lists: either the store is
    the one before the call (receiver a leaf, or an address that names no
    object), or the argument is appended to the receiver's list and every
    other list is as before. *)
Lemma add_filhos b c h :
  snd (add b c h) = h ∨
  (is_Some (h !! b) ∧ is_Some (h !! c) ∧
   ∀ x, filhos (snd (add b c h)) x =
        if decide (b = x) then filhos h b ++ [c] else filhos h x).
Proof.
  unfold add. destruct (h !! b) as [ob|] eqn:Hb; [|by left].
  destruct (h !! c) as [oc|] eqn:Hc; [|by left].
  destruct (classe ob) as [|cs] eqn:Hcl; [by left|].
  right. split_and!; [done..|]. intros x. simpl.
  rewrite filhos_set_parent, filhos_set_children by (by rewrite Hb).
  case_decide; [|done]. unfold filhos. by rewrite Hb, Hcl.
Qed.

Lemma remove_filhos b c h x y :
  y ∈ filhos (snd (remove b c h)) x → y ∈ filhos h x.
Proof.
  unfold remove. destruct (h !! b) as [ob|] eqn:Hb; [|done].
  destruct (h !! c) as [oc|] eqn:Hc; [|done].
  destruct (classe ob) as [|cs] eqn:Hcl; [done|].
  destruct (list_remove_first c cs) as [cs'|] eqn:Hrm; [|done]. simpl.
  rewrite filhos_set_parent, filhos_set_children by (by rewrite Hb).
  case_decide; [|done]. subst x. unfold filhos. rewrite Hb, Hcl.
  by apply (list_remove_first_elem c).
Qed.

Lemma add_is_Some b c h x : is_Some (snd (add b c h) !! x) ↔ is_Some (h !! x).
Proof.
  unfold add. destruct (h !! b) as [ob|]; [|done].
  destruct (h !! c) as [oc|]; [|done].
  destruct (classe ob) as [|cs]; [done|]. simpl.
  etrans; [apply is_Some_set_parent | apply is_Some_set_children].
Qed.

Lemma remove_is_Some b c h x : is_Some (snd (remove b c h) !! x) ↔ is_Some (h !! x).
Proof.
  unfold remove. destruct (h !! b) as [ob|]; [|done].
  destruct (h !! c) as [oc|]; [|done].
  destruct (classe ob) as [|cs]; [done|].
  destruct (list_remove_first c cs); [|done]. simpl.
  etrans; [apply is_Some_set_parent | apply is_Some_set_children].
Qed.

Lemma exec_op_is_Some op h x : is_Some (exec_op op h !! x) ↔ is_Some (h !! x).
Proof. destruct op; [apply add_is_Some | apply remove_is_Some]. Qed.

(** [add] on a composite whose argument is an object. *)
Lemma add_composite b c h ob cs :
  h !! b = Some ob → classe ob = Composite cs → is_Some (h !! c) →
  add b c h = (Ok tt, set_parent c (Ptr b) (set_children b (cs ++ [c]) h)).
Proof. intros Hb Hcl [oc Hc]. unfold add. by rewrite Hb, Hc, Hcl. Qed.

Lemma add_all_snoc b cs c h : add_all b (cs ++ [c]) h = snd (add b c (add_all b cs h)).
Proof. unfold add_all, exec. by rewrite map_app, foldl_app. Qed.

Lemma add_all_is_Some b cs h x : is_Some (add_all b cs h !! x) ↔ is_Some (h !! x).
Proof.
  induction cs as [|c cs IH] using rev_ind; [done|].
  by rewrite add_all_snoc, add_is_Some.
Qed.

(** The receiver of a run of [add] calls stays a composite; its list is
    the one it had, then the arguments in call order. *)
Lemma add_all_classe b cs h ob cs0 :
  h !! b = Some ob → classe ob = Composite cs0 →
  Forall (λ c, is_Some (h !! c)) cs →
  ∃ ob', add_all b cs h !! b = Some ob' ∧ classe ob' = Composite (cs0 ++ cs).
Proof.
  intros Hb Hcl. induction cs as [|c cs IH] using rev_ind; intros Hall.
  - exists ob. by rewrite app_nil_r.
  - apply Forall_app in Hall as [Hcs Hc]. rewrite Forall_singleton in Hc.
    destruct (IH Hcs) as (ob1 & Hb1 & Hcl1).
    rewrite add_all_snoc.
    erewrite add_composite; [|done|done|]; [|apply add_all_is_Some; exact Hc]. simpl.
    rewrite lookup_set_parent, lookup_set_children.
    rewrite (decide_True (P := b = b)) by done. rewrite Hb1.
    case_decide; eexists; (split; [done|]); simpl; by rewrite app_assoc.
Qed.

Lemma add_all_filhos b cs h ob cs0 :
  h !! b = Some ob → classe ob = Composite cs0 →
  Forall (λ c, is_Some (h !! c)) cs →
  filhos (add_all b cs h) b = cs0 ++ cs.
Proof.
  intros Hb Hcl Hall.
  destruct (add_all_classe b cs h ob cs0 Hb Hcl Hall) as (ob' & Hb' & Hcl').
  unfold filhos. by rewrite Hb', Hcl'.
Qed.

End CompositeStore.

(** ** [operation]: results and termination *)
Section CompositeOperation.
Import Composite.

Implicit Types (h : gmap Obj Component) (b c o x y : Obj).

Lemma coletar_Forall2 (op : Obj → Res string) (cs : list Obj) (rs : list string) :
  coletar op cs = Ok rs ↔ Forall2 (λ c r, op c = Ok r) cs rs.
Proof.
  revert rs. induction cs as [|c cs IH]; intros rs; simpl.
  - split; [intros [= <-]; constructor | by intros ->%Forall2_nil_inv_l].
  - split.
    + destruct (op c) as [r| |] eqn:Hc; [|done..].
      destruct (coletar op cs) as [rs'| |] eqn:Hcs; [|done..].
      intros [= <-]. constructor; [done|]. by apply IH.
    + intros (r & rs' & Hr & Hrs & ->)%Forall2_cons_inv_l.
      rewrite Hr. apply IH in Hrs. by rewrite Hrs.
Qed.

(** A call that returns within a bound returns the same with any larger
    bound. *)
Lemma operation_mono (n m : nat) h o (r : string) :
  (n ≤ m)%nat → operation n h o = Ok r → operation m h o = Ok r.
Proof.
  revert m o r. induction n as [|n IH]; intros m o r Hle; [done|].
  destruct m as [|m]; [lia|]. simpl.
  destruct (h !! o) as [ob|]; [|done].
  destruct (classe ob) as [|cs]; [done|].
  destruct (coletar (operation n h) cs) as [rs| |] eqn:Hn; [|done..].
  intros [= <-]. apply coletar_Forall2 in Hn.
  assert (coletar (operation m h) cs = Ok rs) as ->; [|done].
  apply coletar_Forall2. eapply Forall2_impl; [done|].
  simpl. intros c r Hc. apply IH; [lia | done].
Qed.

(** The result does not depend on the bound. *)
Lemma operation_det (n m : nat) h o (r1 r2 : string) :
  operation n h o = Ok r1 → operation m h o = Ok r2 → r1 = r2.
Proof.
  intros H1 H2.
  apply (operation_mono n (n `max` m)) in H1; [|lia].
  apply (operation_mono m (n `max` m)) in H2; [|lia]. congruence.
Qed.

Lemma coletar_all_return h (cs : list Obj) :
  (∀ c, c ∈ cs → ∃ n r, operation n h c = Ok r) →
  ∃ n rs, coletar (operation n h) cs = Ok rs.
Proof.
  induction cs as [|c cs IH]; intros Hall.
  - by exists 0, [].
  - destruct (Hall c) as (n1 & r & Hr); [left|].
    destruct IH as (n2 & rs & Hrs); [intros; apply Hall; by right|].
    exists (n1 `max` n2), (r :: rs). apply coletar_Forall2. constructor.
    + apply (operation_mono n1); [lia | done].
    + apply coletar_Forall2 in Hrs. eapply Forall2_impl; [done|].
      simpl. intros c' r' Hc'. apply (operation_mono n2); [lia | done].
Qed.

(** On a store whose listed children are all objects, [operation] on an
    object below which the child relation is well founded returns within
    some bound (one that grows with the height of the tree; CPython's
    recursion limit may be smaller). *)
Lemma operation_returns h o :
  fechado h → is_Some (h !! o) → Acc (filho h) o →
  ∃ n r, operation n h o = Ok r.
Proof.
  intros Hfe Ho Hacc. induction Hacc as [o _ IH].
  destruct Ho as [ob Hob].
  destruct (classe ob) as [|cs] eqn:Hcl.
  - exists 1, "Folha". simpl. by rewrite Hob, Hcl.
  - destruct (coletar_all_return h cs) as (n & rs & Hrs).
    { intros c Hc.
      assert (filho h c o) as Hf by (unfold filho, filhos; by rewrite Hob, Hcl).
      apply IH; [done|]. by apply (Hfe o). }
    exists (S n). eexists. simpl. by rewrite Hob, Hcl, Hrs.
Qed.

(** A composite that lists itself: [operation] returns within no bound. *)
Lemma operation_self_child h o :
  filho h o o → ∀ n r, operation n h o ≠ Ok r.
Proof.
  intros Hf n. induction n as [|n IH]; intros r; [done|]. simpl.
  unfold filho, filhos in Hf.
  destruct (h !! o) as [ob|]; [|done].
  destruct (classe ob) as [|cs]; [by apply not_elem_of_nil in Hf|].
  destruct (coletar (operation n h) cs) as [rs| |] eqn:Hrs; [|done..].
  apply coletar_Forall2 in Hrs.
  apply list_elem_of_lookup in Hf as [i Hi].
  destruct (Forall2_lookup_l _ _ _ _ _ Hrs Hi) as (r' & _ & Hr).
  by apply IH in Hr.
Qed.

End CompositeOperation.

(** ** Acyclicity of the child relation *)
Section CompositeInvariant.
Import Composite.

Section Relations.
Context {A : Type} (R : relation A).

Lemma Acc_subrel (R' : relation A) (x : A) :
  (∀ y z, R' y z → R y z) → Acc R x → Acc R' x.
Proof.
  intros Hsub Hacc. induction Hacc as [x _ IH].
  constructor. intros y Hy. apply IH, Hsub, Hy.
Qed.

Lemma tc_last (x z : A) : tc R x z → ∃ y, rtc R x y ∧ R y z.
Proof.
  induction 1 as [x z Hxz | x y z Hxy _ (y' & Hy & Hz)].
  - exists x. split; [apply rtc_refl | done].
  - exists y'. split; [by eapply rtc_l | done].
Qed.

Lemma Acc_tc (x : A) : Acc R x → Acc (tc R) x.
Proof.
  induction 1 as [x _ IH]. constructor. intros y Hy.
  apply tc_last in Hy as (z & Hyz & Hzx).
  apply rtc_tc in Hyz as [->|Hyz]; [by apply IH|].
  apply (Acc_inv (IH z Hzx)), Hyz.
Qed.

Lemma Acc_irrefl (x : A) : Acc R x → ¬ R x x.
Proof. induction 1 as [x _ IH]. intros Hx. exact (IH x Hx Hx). Qed.

(** One more edge, from [b] down to [c], keeps the relation well founded
    when [b] is not already reachable downwards from [c]. *)
Lemma Acc_add_edge (b c : A) :
  (∀ x, Acc R x) → ¬ rtc R b c →
  ∀ x, Acc (λ y z, R y z ∨ (y = c ∧ z = b)) x.
Proof.
  intros Hwf Hguard.
  assert (∀ x, rtc R x c → Acc (λ y z, R y z ∨ (y = c ∧ z = b)) x) as Hbelow.
  { intros x. induction (Hwf x) as [x _ IH]. intros Hxc.
    constructor. intros y [Hy|[-> ->]]; [|done].
    apply IH; [done|]. by eapply rtc_l. }
  intros x. induction (Hwf x) as [x _ IH].
  constructor. intros y [Hy|[-> ->]]; [by apply IH|].
  apply Hbelow, rtc_refl.
Qed.
End Relations.

Implicit Types (h : gmap Obj Component) (b c o x y : Obj).

Lemma bem_fundado_aciclico h : bem_fundado h → aciclico h.
Proof. intros Hwf o. unfold ancestral. apply Acc_irrefl, Acc_tc, Hwf. Qed.

Lemma filho_add b c h y x :
  filho (snd (add b c h)) y x → filho h y x ∨ (y = c ∧ x = b).
Proof.
  unfold filho. destruct (add_filhos b c h) as [->|(_ & _ & Hf)]; [by left|].
  rewrite Hf. case_decide; [|by left]. subst x.
  rewrite elem_of_app, list_elem_of_singleton. intros [Hin| ->]; [by left | by right].
Qed.

Lemma fechado_exec_op op h : fechado h → fechado (exec_op op h).
Proof.
  intros Hfe x y Hf. apply exec_op_is_Some. destruct op as [b c|b c]; simpl in Hf.
  - destruct (add_filhos b c h) as [Heq|(_ & Hc & _)].
    + rewrite Heq in Hf. by apply (Hfe x).
    + apply filho_add in Hf as [Hf|[-> _]]; [by apply (Hfe x) | done].
  - apply remove_filhos in Hf. by apply (Hfe x).
Qed.

Lemma bem_fundado_add b c h :
  bem_fundado h → ¬ rtc (filho h) b c → bem_fundado (snd (add b c h)).
Proof.
  intros Hwf Hguard o.
  apply (Acc_subrel (λ y z, filho h y z ∨ (y = c ∧ z = b))).
  - intros y z. apply filho_add.
  - by apply Acc_add_edge.
Qed.

Lemma bem_fundado_remove b c h :
  bem_fundado h → bem_fundado (snd (remove b c h)).
Proof.
  intros Hwf o. apply (Acc_subrel (filho h)); [|apply Hwf].
  intros y z. apply remove_filhos.
Qed.

(** [add] under the condition of [ops_seguras]: a receiver that is not a
    composite leaves the store as it is. *)
Lemma bem_fundado_add_seguro b c h :
  bem_fundado h → (is_composite b h = Ok true → ¬ rtc (filho h) b c) →
  bem_fundado (snd (add b c h)).
Proof.
  intros Hwf Hguard.
  destruct (h !! b) as [ob|] eqn:Hb; [|unfold add; by rewrite Hb].
  destruct (classe ob) as [|cs] eqn:Hcl.
  - unfold add. rewrite Hb. destruct (h !! c); [by rewrite Hcl | done].
  - apply bem_fundado_add; [done|]. apply Hguard.
    unfold is_composite. by rewrite Hb, Hcl.
Qed.

Lemma bem_fundado_exec ops h :
  bem_fundado h → ops_seguras ops h → bem_fundado (exec ops h).
Proof.
  revert h. induction ops as [|op ops IH]; intros h Hwf Hsafe; [done|].
  unfold exec. simpl. apply IH.
  - destruct op as [b c|b c]; simpl.
    + apply bem_fundado_add_seguro; [done | apply Hsafe].
    + by apply bem_fundado_remove.
  - destruct op; simpl in Hsafe; [apply Hsafe | done].
Qed.

(** The condition cannot be dropped: an [add] that hands a composite
    itself or one of its ancestors closes a cycle through the argument. *)
Lemma add_ancestral_fecha_ciclo b c h ob (cs : list Obj) :
  h !! b = Some ob → classe ob = Composite cs → is_Some (h !! c) →
  rtc (filho h) b c → ancestral (snd (add b c h)) c c.
Proof.
  intros Hb Hcl Hc Hbc.
  assert (∀ x, filhos (snd (add b c h)) x
               = if decide (b = x) then cs ++ [c] else filhos h x) as Hf.
  { intros x. rewrite (add_composite b c h ob cs Hb Hcl Hc). simpl.
    rewrite filhos_set_parent. apply filhos_set_children. by rewrite Hb. }
  assert (∀ y x, filho h y x → filho (snd (add b c h)) y x) as Hmono.
  { intros y x Hyx. unfold filho in *. rewrite Hf. case_decide; [|done].
    subst x. unfold filhos in Hyx. rewrite Hb, Hcl in Hyx.
    apply elem_of_app. by left. }
  unfold ancestral. eapply tc_rtc_r.
  - apply tc_once. unfold filho. rewrite Hf, decide_True by done.
    apply elem_of_app. right. left.
  - eapply rtc_subrel; [|exact Hbc]. exact Hmono.
Qed.

(** A store in which no object lists a child. *)
Lemma sem_filhos_invariante h :
  (∀ o, filhos h o = []) → fechado h ∧ bem_fundado h.
Proof.
  intros Hnil. split.
  - intros b c Hf. unfold filho in Hf. rewrite Hnil in Hf.
    by apply not_elem_of_nil in Hf.
  - intros o. constructor. intros y Hf. unfold filho in Hf.
    rewrite Hnil in Hf. by apply not_elem_of_nil in Hf.
Qed.

(** Nothing but itself reaches an object without children. *)
Lemma rtc_filho_folha h b c : filhos h c = [] → rtc (filho h) b c → b = c.
Proof.
  intros Hnil Hrtc. apply rtc_inv_r in Hrtc as [Heq|(y & _ & Hy)]; [done|].
  unfold filho in Hy. rewrite Hnil in Hy. by apply not_elem_of_nil in Hy.
Qed.

End CompositeInvariant.

(** ** The claims about the Composite tree *)
Section CompositeClaims.
Import Composite.

Implicit Types (h : gmap Obj Component) (b c o x y : Obj).

Example folha_e_galhos_objetos :
  fst (novo_Leaf ∅) = 1%positive ∧
  fst (novo_Composite (snd (novo_Leaf ∅))) = 2%positive ∧
  fst (novo_Composite (snd (novo_Composite (snd (novo_Leaf ∅))))) = 3%positive.
Proof. by vm_compute. Qed.

Lemma sem_filhos_novo h (k : Classe) :
  (k = Leaf ∨ k = Composite []) →
  (∀ o, filhos h o = []) → ∀ o, filhos (snd (novo k h)) o = [].
Proof.
  intros Hk Hnil o. unfold novo, filhos. simpl.
  destruct (decide (fresh (dom h) = o)) as [<-|Hne].
  - rewrite lookup_insert_eq. simpl. by destruct Hk as [-> | ->].
  - rewrite lookup_insert_ne by done. apply Hnil.
Qed.

Lemma sem_filhos_folha_e_galhos o : filhos folha_e_galhos o = [].
Proof.
  unfold folha_e_galhos, novo_Composite, novo_Leaf.
  do 3 (apply sem_filhos_novo; [by (left + right)|]).
  intros o'. unfold filhos. by rewrite lookup_empty.
Qed.

Lemma sem_filhos_so_galho o : filhos so_galho o = [].
Proof.
  unfold so_galho, novo_Composite. apply sem_filhos_novo; [by right|].
  intros o'. unfold filhos. by rewrite lookup_empty.
Qed.

(** C2.  [operation] of a leaf is the constant label "Folha".  For a
    composite [b] that held the children [cs0] and then received the calls
    [b.add(c)] for the objects [c] of [cs], in that order: its children are
    [cs0 ++ cs], and whenever the children's [operation] calls return the
    strings [rs], [b.operation()] returns "Galho(" followed by [rs] joined
    with "+", in that same order, followed by ")". *)
Theorem C2_operation_insertion_order h b ob (cs0 cs : list Obj) :
  h !! b = Some ob → classe ob = Composite cs0 →
  Forall (λ c, is_Some (h !! c)) cs →
  filhos (add_all b cs h) b = cs0 ++ cs
  ∧ (∀ l obl fuel, add_all b cs h !! l = Some obl → classe obl = Leaf →
       operation (S fuel) (add_all b cs h) l = Ok "Folha")
  ∧ (∀ (rs : list string) fuel,
       Forall2 (λ c r, operation fuel (add_all b cs h) c = Ok r) (cs0 ++ cs) rs →
       operation (S fuel) (add_all b cs h) b
       = Ok ("Galho(" +:+ String.concat "+" rs +:+ ")")).
Proof.
  intros Hb Hcl Hall.
  destruct (add_all_classe b cs h ob cs0 Hb Hcl Hall) as (ob' & Hb' & Hcl').
  split_and!.
  - by eapply add_all_filhos.
  - intros l obl fuel Hl Hleaf. simpl. by rewrite Hl, Hleaf.
  - intros rs fuel Hrs. simpl. rewrite Hb', Hcl'.
    apply coletar_Forall2 in Hrs. by rewrite Hrs.
Qed.

Lemma C2_operation_insertion_order_witness :
  filhos (add_all 2 [1; 3; 1]%positive folha_e_galhos) 2%positive = [1; 3; 1]%positive
  ∧ operation 2 (add_all 2 [1; 3; 1]%positive folha_e_galhos) 2%positive
    = Ok "Galho(Folha+Galho()+Folha)".
Proof.
  destruct (C2_operation_insertion_order folha_e_galhos 2%positive
              (mkComponent (Composite []) None) [] [1; 3; 1]%positive)
    as (Hf & _ & Hop).
  - reflexivity.
  - reflexivity.
  - repeat constructor; eexists; reflexivity.
  - split; [exact Hf|].
    apply (Hop ["Folha"; "Galho()"; "Folha"] 1%nat).
    repeat constructor.
Defined.

(** C3, as the code has it.  On a composite [b], [b.remove(c)] with [c]
    not among the children raises [ValueError], the error of the list's
    [remove], and the store is the one before the call.  With [c] among
    the children it returns, the first entry equal to [c] is gone from
    [b]'s list, [c]'s parent reference is [None], and no other list and no
    other parent reference changes. *)
Theorem C3_remove_raises_when_absent h b c ob (cs : list Obj) :
  h !! b = Some ob → classe ob = Composite cs → is_Some (h !! c) →
  (c ∉ cs → remove b c h = (Raise ValueError, h))
  ∧ (∀ l1 l2, cs = l1 ++ c :: l2 → c ∉ l1 →
       ∃ h', remove b c h = (Ok tt, h')
             ∧ filhos h' b = l1 ++ l2
             ∧ _parent <$> h' !! c = Some (Some PyNone)
             ∧ (∀ x, x ≠ b → filhos h' x = filhos h x)
             ∧ (∀ x, x ≠ c → _parent <$> h' !! x = _parent <$> h !! x)).
Proof.
  intros Hb Hcl [oc Hc]. split.
  - intros Hnin. apply list_remove_first_None in Hnin.
    unfold remove. by rewrite Hb, Hc, Hcl, Hnin.
  - intros l1 l2 -> Hnin. eexists. split_and!.
    + unfold remove. rewrite Hb, Hc, Hcl.
      by rewrite list_remove_first_split.
    + rewrite filhos_set_parent, filhos_set_children by (by rewrite Hb).
      by rewrite decide_True.
    + rewrite lookup_set_parent, decide_True by done.
      rewrite lookup_set_children. case_decide; subst.
      * by rewrite Hb.
      * by rewrite Hc.
    + intros x Hx.
      rewrite filhos_set_parent, filhos_set_children by (by rewrite Hb).
      by rewrite decide_False.
    + intros x Hx. rewrite lookup_set_parent, decide_False by done.
      rewrite lookup_set_children. case_decide; [|done].
      subst. by rewrite Hb.
Qed.

Lemma C3_remove_raises_when_absent_witness :
  remove 2 1 folha_e_galhos = (Raise ValueError, folha_e_galhos)
  ∧ ∃ h', remove 2 1 (add_all 2 [3; 1; 1]%positive folha_e_galhos) = (Ok tt, h')
          ∧ filhos h' 2%positive = [3; 1]%positive.
Proof.
  split.
  - apply (C3_remove_raises_when_absent folha_e_galhos 2%positive 1%positive
             (mkComponent (Composite []) None) []).
    + reflexivity.
    + reflexivity.
    + eexists; reflexivity.
    + apply not_elem_of_nil.
  - destruct (C3_remove_raises_when_absent
                (add_all 2 [3; 1; 1]%positive folha_e_galhos) 2%positive 1%positive
                (mkComponent (Composite [3; 1; 1]%positive) None) [3; 1; 1]%positive)
      as [_ Hpres].
    + reflexivity.
    + reflexivity.
    + eexists; reflexivity.
    + destruct (Hpres [3%positive] [1%positive]) as (h' & Hrm & Hf & _).
      * reflexivity.
      * intros Hin. apply list_elem_of_singleton in Hin. discriminate Hin.
      * exists h'. split; [exact Hrm | exact Hf].
Defined.

(** C3 as stated fails: removing the leaf 1, which is not a child of the
    composite 2, is not a silent return; it raises [ValueError]. *)
Lemma C3_remove_absent_not_silent :
  (1%positive ∉ filhos folha_e_galhos 2%positive)
  ∧ fst (remove 2 1 folha_e_galhos) = Raise ValueError
  ∧ fst (remove 2 1 folha_e_galhos) ≠ Ok tt.
Proof.
  split_and!.
  - rewrite sem_filhos_folha_e_galhos. apply not_elem_of_nil.
  - reflexivity.
  - discriminate.
Qed.

(** C6, as the code has it.  [add] makes no check on its argument, so the
    invariant needs a condition on the calls: in a store whose child
    relation is well founded, run any sequence of [add] and [remove] calls
    in which no [add] hands a composite itself or one of its ancestors
    (without the condition a cycle appears: [add_ancestral_fecha_ciclo]).
    Then no object is its own ancestor and the child relation is still
    well founded; the result of [operation] on a composite is a function
    of the results of its children: "Galho(" followed by those results in
    list order, joined with "+", followed by ")"; and two calls of
    [operation] on one object that return, return the same string. *)
Theorem C6_acyclic_when_no_ancestor_added (ops : list Op) h :
  bem_fundado h → ops_seguras ops h →
  aciclico (exec ops h)
  ∧ bem_fundado (exec ops h)
  ∧ (∀ b ob (cs : list Obj) (rs : list string) (fuel : nat),
       exec ops h !! b = Some ob → classe ob = Composite cs →
       Forall2 (λ c r, operation fuel (exec ops h) c = Ok r) cs rs →
       operation (S fuel) (exec ops h) b
       = Ok ("Galho(" +:+ String.concat "+" rs +:+ ")"))
  ∧ (∀ o (n m : nat) (r1 r2 : string),
       operation n (exec ops h) o = Ok r1 →
       operation m (exec ops h) o = Ok r2 → r1 = r2).
Proof.
  intros Hwf Hsafe.
  pose proof (bem_fundado_exec ops h Hwf Hsafe) as Hwf'.
  split_and!; [by apply bem_fundado_aciclico | done | |].
  - intros b ob cs rs fuel Hb Hcl Hrs. simpl. rewrite Hb, Hcl.
    apply coletar_Forall2 in Hrs. by rewrite Hrs.
  - intros o n m r1 r2. apply operation_det.
Qed.

Lemma C6_acyclic_when_no_ancestor_added_witness :
  aciclico (exec [Add 1 1; Add 2 1; Add 1 2; Add 3 2; Remove 2 1]%positive
              folha_e_galhos)
  ∧ bem_fundado (exec [Add 1 1; Add 2 1; Add 1 2; Add 3 2; Remove 2 1]%positive
                   folha_e_galhos)
  ∧ operation 2 (exec [Add 1 1; Add 2 1; Add 1 2; Add 3 2; Remove 2 1]%positive
                   folha_e_galhos) 3
    = Ok "Galho(Galho())".
Proof.
  destruct (C6_acyclic_when_no_ancestor_added
              [Add 1 1; Add 2 1; Add 1 2; Add 3 2; Remove 2 1]%positive folha_e_galhos)
    as (Hac & Hwf & Hop & _).
  - apply sem_filhos_invariante, sem_filhos_folha_e_galhos.
  - simpl. split_and!; [| | | |exact I].
    + intros Hk. vm_compute in Hk. discriminate Hk.
    + intros _ Hr. apply rtc_filho_folha in Hr; [discriminate Hr | reflexivity].
    + intros Hk. vm_compute in Hk. discriminate Hk.
    + intros _ Hr. apply rtc_inv_r in Hr as [Heq|(y & Hy & Hin)]; [discriminate Heq|].
      unfold filho in Hin.
      change (y ∈ [1%positive]) in Hin.
      apply list_elem_of_singleton in Hin. subst y.
      apply rtc_filho_folha in Hy; [discriminate Hy | reflexivity].
  - split_and!; [exact Hac | exact Hwf |].
    apply (Hop 3%positive (mkComponent (Composite [2%positive]) None)
             [2%positive] ["Galho()"] 1%nat).
    + reflexivity.
    + reflexivity.
    + repeat constructor.
Defined.

(** C6 as stated fails: on a store with the single composite 1, which is
    closed and well founded, the call [1.add(1)] makes the object its own
    child, hence its own ancestor; its parent reference points to itself
    and [operation] on it returns within no bound. *)
Lemma C6_add_self_makes_cycle :
  fechado so_galho ∧ bem_fundado so_galho
  ∧ fst (add 1 1 so_galho) = Ok tt
  ∧ ancestral (exec [Add 1 1]%positive so_galho) 1 1
  ∧ ¬ aciclico (exec [Add 1 1]%positive so_galho)
  ∧ _parent <$> exec [Add 1 1]%positive so_galho !! 1%positive = Some (Some (Ptr 1))
  ∧ ∀ n r, operation n (exec [Add 1 1]%positive so_galho) 1 ≠ Ok r.
Proof.
  assert (filho (exec [Add 1 1]%positive so_galho) 1 1) as Hf.
  { unfold filho. change (1%positive ∈ [1%positive]). left. }
  split_and!.
  - apply sem_filhos_invariante, sem_filhos_so_galho.
  - apply sem_filhos_invariante, sem_filhos_so_galho.
  - reflexivity.
  - by apply tc_once.
  - intros Hac. apply (Hac 1%positive). by apply tc_once.
  - reflexivity.
  - by apply operation_self_child.
Qed.

(** C10.  On a leaf [l], [l.add(c)] and [l.remove(c)] return [None] and
    change nothing in the store: [l] has no children, the parent reference
    of [c] is what it was, and [l.operation()] is still "Folha". *)
Theorem C10_leaf_add_remove_noop h l c obl :
  h !! l = Some obl → classe obl = Leaf → is_Some (h !! c) →
  add l c h = (Ok tt, h)
  ∧ remove l c h = (Ok tt, h)
  ∧ filhos (snd (add l c h)) l = [] ∧ filhos (snd (remove l c h)) l = []
  ∧ _parent <$> snd (add l c h) !! c = _parent <$> h !! c
  ∧ _parent <$> snd (remove l c h) !! c = _parent <$> h !! c
  ∧ (∀ fuel, operation (S fuel) (snd (add l c h)) l = Ok "Folha"
             ∧ operation (S fuel) (snd (remove l c h)) l = Ok "Folha").
Proof.
  intros Hl Hleaf [oc Hc].
  assert (add l c h = (Ok tt, h)) as Hadd
    by (unfold add; by rewrite Hl, Hc, Hleaf).
  assert (remove l c h = (Ok tt, h)) as Hrem
    by (unfold remove; by rewrite Hl, Hc, Hleaf).
  rewrite Hadd, Hrem. simpl.
  split_and!; try done.
  - unfold filhos. by rewrite Hl, Hleaf.
  - unfold filhos. by rewrite Hl, Hleaf.
  - intros fuel. by rewrite Hl, Hleaf.
Qed.

Lemma C10_leaf_add_remove_noop_witness :
  add 1 2 folha_e_galhos = (Ok tt, folha_e_galhos)
  ∧ remove 1 2 folha_e_galhos = (Ok tt, folha_e_galhos).
Proof.
  destruct (C10_leaf_add_remove_noop folha_e_galhos 1%positive 2%positive
              (mkComponent Leaf None)) as (Ha & Hr & _).
  - reflexivity.
  - reflexivity.
  - eexists; reflexivity.
  - split; [exact Ha | exact Hr].
Defined.

End CompositeClaims.

(** ** The Observer registry *)
Section ObserverStore.
Import Observer.

Variable classe_de : Obj → Observador.

Implicit Types (w : Mundo) (s o : Obj) (e : option Z) (l : list Obj).

Lemma estado_de_imprimir linha w s : estado_de (imprimir linha w) s = estado_de w s.
Proof. done. Qed.

Lemma estado_de_com_observadores l w s :
  estado_de (com_observadores l w) s = estado_de w s.
Proof. done. Qed.

(** Both concrete observers are well behaved once the state is an
    integer. *)
Lemma concreto_comportado s (n : Z) o :
  concreto (classe_de o) = true → comportado classe_de s (Some n) o.
Proof.
  intros Hc w Hest. unfold atualizar.
  destruct (classe_de o); [| |done].
  - unfold atualizar_A. rewrite Hest. destruct (n <? 3)%Z; eauto.
  - unfold atualizar_B. rewrite Hest.
    destruct ((n =? 0)%Z || (n >=? 2)%Z)%bool; eauto.
Qed.

(** On the state [None] each concrete observer raises [TypeError]. *)
Lemma concreto_None s o w :
  concreto (classe_de o) = true → estado_de w s = None →
  atualizar classe_de o s w = (Raise TypeError, w).
Proof.
  intros Hc Hest. unfold atualizar.
  destruct (classe_de o); [| |done].
  - unfold atualizar_A. by rewrite Hest.
  - unfold atualizar_B. by rewrite Hest.
Qed.

(** One round of the loop at an index inside the live list. *)
Lemma notificar_laco_passo fuel (i : nat) s w (tr : list Visita) o :
  observadores_de w s !! i = Some o →
  notificar_laco classe_de (S fuel) i s w tr
  = match atualizar classe_de o s w with
    | (Ok _, w') =>
        notificar_laco classe_de fuel (S i) s w' (tr ++ [mkVisita o s (estado_de w s)])
    | (Raise ex, w') => (Raise ex, w', tr ++ [mkVisita o s (estado_de w s)])
    | (Fuel, w') => (Fuel, w', tr ++ [mkVisita o s (estado_de w s)])
    end.
Proof. intros Hi. simpl. by rewrite Hi. Qed.

(** The loop over a stretch [seg] of well-behaved observers: the index
    moves past the stretch, the trace grows by one call per entry, in
    list order. *)
Lemma notificar_laco_segmento s e (seg : list Obj) :
  ∀ (pre pos : list Obj) (fuel : nat) w (tr : list Visita),
    _observadores w = pre ++ seg ++ pos →
    Forall (comportado classe_de s e) seg →
    estado_de w s = e →
    ∃ w', notificar_laco classe_de (length seg + fuel) (length pre) s w tr
          = notificar_laco classe_de fuel (length pre + length seg) s w'
              (tr ++ map (λ o, mkVisita o s e) seg)
          ∧ _observadores w' = _observadores w
          ∧ estado_de w' s = e.
Proof.
  induction seg as [|o seg IH]; intros pre pos fuel w tr Hl Hall Hest.
  - exists w. simpl. by rewrite Nat.add_0_r, app_nil_r.
  - apply Forall_cons in Hall as [Ho Hseg].
    destruct (Ho w Hest) as (w1 & Hup & Hl1 & Hest1).
    destruct (IH (pre ++ [o]) pos fuel w1 (tr ++ [mkVisita o s e]))
      as (w' & Hrun & Hl' & Hest'); [|done|done|].
    { rewrite Hl1, Hl. by rewrite <- app_assoc. }
    exists w'. split_and!; [|congruence|done].
    change (length (o :: seg) + fuel)%nat with (S (length seg + fuel)).
    rewrite (notificar_laco_passo _ _ _ _ _ o)
      by (unfold observadores_de; rewrite Hl; by apply list_lookup_middle).
    rewrite Hest, Hup.
    rewrite length_app in Hrun. simpl in Hrun.
    replace (S (length pre)) with (length pre + 1)%nat by lia.
    rewrite Hrun. simpl. rewrite <- app_assoc. simpl.
    by replace (length pre + 1 + length seg)%nat
      with (length pre + S (length seg))%nat by lia.
Qed.

(** Past the end of the live list the loop is over. *)
Lemma notificar_laco_fim fuel (i : nat) s w (tr : list Visita) :
  (length (_observadores w) ≤ i)%nat →
  notificar_laco classe_de fuel i s w tr = (Ok tt, w, tr).
Proof.
  intros Hi. destruct fuel; simpl; unfold observadores_de;
    by rewrite lookup_ge_None_2.
Qed.

Lemma remover_ausente s o w :
  o ∉ observadores_de w s → remover s o w = (Raise ValueError, w).
Proof.
  intros Hnin. apply list_remove_first_None in Hnin.
  unfold remover. by rewrite Hnin.
Qed.

Lemma remover_presente s o w (l1 l2 : list Obj) :
  observadores_de w s = l1 ++ o :: l2 → o ∉ l1 →
  remover s o w
  = (Ok tt, imprimir "Sujeito: Observador removido." (com_observadores (l1 ++ l2) w)).
Proof.
  intros Hl Hnin. unfold remover. rewrite Hl.
  by rewrite list_remove_first_split.
Qed.

(** A whole pass over well-behaved observers. *)
Lemma notificar_comportados s w e (fuel : nat) :
  estado_de w s = e →
  Forall (comportado classe_de s e) (observadores_de w s) →
  (length (observadores_de w s) ≤ fuel)%nat →
  ∃ w', notificar classe_de fuel s w
        = (Ok tt, w', map (λ o, mkVisita o s e) (observadores_de w s))
        ∧ observadores_de w' s = observadores_de w s
        ∧ estado_de w' s = e.
Proof.
  intros Hest Hall Hfuel. unfold notificar.
  set (w0 := imprimir "Sujeito: Notificando observadores..." w).
  destruct (notificar_laco_segmento s e (observadores_de w s)
              [] [] (fuel - length (observadores_de w s)) w0 [])
    as (w' & Hrun & Hl & Hest'); [by rewrite app_nil_r|done|done|].
  exists w'. split_and!; [|unfold observadores_de; by rewrite Hl|exact Hest'].
  replace fuel with (length (observadores_de w s)
                     + (fuel - length (observadores_de w s)))%nat at 1 by lia.
  simpl in Hrun. rewrite Hrun.
  apply notificar_laco_fim. by rewrite Hl.
Qed.

(** A pass over [pre ++ r :: pos] in which [r] unsubscribes itself and
    every other observer is well behaved: after the call to [r] the live
    list is [pre ++ pos] and the index is one past [r]'s old position, so
    the first entry of [pos] is stepped over. *)
Lemma notificar_desinscreve s e w (r : Obj) (pre pos : list Obj) (k : nat) :
  observadores_de w s = pre ++ r :: pos →
  classe_de r = Desinscreve → r ∉ pre → estado_de w s = e →
  Forall (comportado classe_de s e) pre → Forall (comportado classe_de s e) pos →
  ∃ w', notificar classe_de (length pre + S (length (drop 1 pos) + k)) s w
        = (Ok tt, w', map (λ o, mkVisita o s e) (pre ++ r :: drop 1 pos))
        ∧ observadores_de w' s = pre ++ pos.
Proof.
  intros Hl Hcls Hnin Hest Hpre Hpos. unfold notificar.
  set (w0 := imprimir "Sujeito: Notificando observadores..." w).
  destruct (notificar_laco_segmento s e pre [] (r :: pos)
              (S (length (drop 1 pos) + k)) w0 [])
    as (w1 & Hrun1 & Hl1 & Hest1); [done..|].
  change (length (@nil Obj)) with 0%nat in Hrun1.
  rewrite Hrun1. clear Hrun1.
  change (0 + length pre)%nat with (length pre).
  change ([] ++ map (λ o, mkVisita o s e) pre) with (map (λ o, mkVisita o s e) pre).
  assert (_observadores w1 = pre ++ r :: pos) as Hl1' by by rewrite Hl1.
  rewrite (notificar_laco_passo _ _ _ _ _ r)
    by (unfold observadores_de; rewrite Hl1'; by apply list_lookup_middle).
  unfold atualizar at 1. rewrite Hcls. simpl.
  rewrite (remover_presente s r w1 pre pos) by done.
  set (w2 := imprimir "Sujeito: Observador removido."
               (com_observadores (pre ++ pos) w1)).
  rewrite Hest1.
  destruct pos as [|q pos'].
  - exists w2. split; [|done]. simpl.
    rewrite notificar_laco_fim; [by rewrite map_app|].
    simpl. rewrite length_app. simpl. lia.
  - apply Forall_cons in Hpos as [_ Hpos']. simpl.
    destruct (notificar_laco_segmento s e pos' (pre ++ [q]) [] k w2
                (map (λ o, mkVisita o s e) pre ++ [mkVisita r s e]))
      as (w3 & Hrun3 & Hl3 & Hest3); [|done|done|].
    { simpl. by rewrite app_nil_r, <- app_assoc. }
    rewrite length_app in Hrun3. simpl in Hrun3.
    replace (S (length pre)) with (length pre + 1)%nat by lia.
    rewrite !drop_0, Hrun3. exists w3. split.
    + rewrite notificar_laco_fim.
      * by rewrite map_app, <- app_assoc.
      * rewrite Hl3. simpl. rewrite length_app. simpl. lia.
    + unfold observadores_de. by rewrite Hl3.
Qed.

End ObserverStore.

(** ** The claims about the Observer registry *)
Section ObserverClaims.
Import Observer.

Implicit Types (w : Mundo) (s o : Obj) (e : option Z) (l : list Obj).

Example demo_sem_estado_sujeito : fst demo_sem_estado = 1%positive.
Proof. reflexivity. Qed.

Example mundo_com_sujeito l (n : Z) : fst (mundo_com l n) = 1%positive.
Proof. reflexivity. Qed.

(** C1, as the code has it.  When the [atualizar] of every registered
    observer returns and leaves the subscriber list and the subject's
    state as they were (both concrete observers do, once the state is an
    integer: [concreto_comportado]), [notificar] returns, and the calls it
    made are exactly one per entry of the subscriber list, in list order,
    each with the subject itself and the state the subject has. *)
Theorem C1_notificar_visits_each_entry_in_order
    (classe_de : Obj → Observador) s w e (fuel : nat) :
  estado_de w s = e →
  Forall (comportado classe_de s e) (observadores_de w s) →
  (length (observadores_de w s) ≤ fuel)%nat →
  ∃ w', notificar classe_de fuel s w
        = (Ok tt, w', map (λ o, mkVisita o s e) (observadores_de w s))
        ∧ observadores_de w' s = observadores_de w s
        ∧ estado_de w' s = e.
Proof.
  intros Hest Hall Hfuel. by apply notificar_comportados.
Qed.

Lemma C1_notificar_visits_each_entry_in_order_witness :
  ∃ w', notificar classes_demo 2 1 (snd (mundo_com [10; 11]%positive 2))
        = (Ok tt, w', [mkVisita 10 1 (Some 2%Z); mkVisita 11 1 (Some 2%Z)])
        ∧ observadores_de w' 1 = [10; 11]%positive
        ∧ estado_de w' 1 = Some 2%Z.
Proof.
  apply (C1_notificar_visits_each_entry_in_order classes_demo 1%positive
           (snd (mundo_com [10; 11]%positive 2)) (Some 2%Z) 2%nat).
  - reflexivity.
  - repeat constructor; by apply concreto_comportado.
  - simpl. lia.
Defined.

(** C1 as stated fails on a subject whose state was never assigned: with
    the driver's two observers registered, the first call raises
    [TypeError] and the second observer is not visited. *)
Lemma C1_unset_state_stops_the_pass :
  observadores_de (snd demo_sem_estado) 1 = [10; 11]%positive
  ∧ estado_de (snd demo_sem_estado) 1 = None
  ∧ ∀ fuel, ∃ w',
      notificar classes_demo (S fuel) 1 (snd demo_sem_estado)
      = (Raise TypeError, w', [mkVisita 10 1 None]).
Proof.
  split_and!; [reflexivity..|].
  intros fuel. eexists. unfold notificar.
  erewrite notificar_laco_passo by reflexivity. reflexivity.
Qed.

(** C4.  [remover] on an observer that is registered returns, prints its
    line, and the subscriber list is the old one without the first entry
    equal to the observer; on an observer that is not registered it raises
    [ValueError], the error of the list's [remove], instead of
    returning. *)
Theorem C4_remover_first_match_or_value_error w s o :
  (o ∉ observadores_de w s →
     remover s o w = (Raise ValueError, w))
  ∧ (∀ l1 l2, observadores_de w s = l1 ++ o :: l2 → o ∉ l1 →
       remover s o w = (Ok tt, imprimir "Sujeito: Observador removido."
                                (com_observadores (l1 ++ l2) w))
       ∧ observadores_de (snd (remover s o w)) s = l1 ++ l2).
Proof.
  split.
  - apply remover_ausente.
  - intros l1 l2 Hl Hnin. by rewrite (remover_presente s o w l1 l2).
Qed.

Lemma C4_remover_first_match_or_value_error_witness :
  remover 1 12 (snd (mundo_com [10; 11]%positive 2))
  = (Raise ValueError, snd (mundo_com [10; 11]%positive 2))
  ∧ observadores_de (snd (remover 1 10 (snd (mundo_com [11; 10; 10]%positive 2)))) 1
    = [11; 10]%positive.
Proof.
  split.
  - apply (proj1 (C4_remover_first_match_or_value_error
                    (snd (mundo_com [10; 11]%positive 2)) 1%positive 12%positive)).
    intros Hin. apply elem_of_cons in Hin as [Heq|Hin]; [discriminate Heq|].
    apply list_elem_of_singleton in Hin. discriminate Hin.
  - apply (proj2 (C4_remover_first_match_or_value_error
                    (snd (mundo_com [11; 10; 10]%positive 2)) 1%positive 10%positive)
             [11%positive] [10%positive]).
    + reflexivity.
    + intros Hin. apply list_elem_of_singleton in Hin. discriminate Hin.
Defined.

(** C5 fails on the code: the subscriber list is the one list of the
    class.  Registering through any subject [s1] shows in the list of
    every subject [s2], and so does removing; in the run
    [demo_dois_sujeitos], the second subject, on which nothing was
    registered, notifies the observer registered on the first. *)
Theorem C5_subscriber_list_shared_by_all_subjects :
  (∀ w s1 s2 o,
      observadores_de (snd (adicionar s1 o w)) s2 = observadores_de w s2 ++ [o])
  ∧ (∀ w s1 s2 o l1 l2,
      observadores_de w s2 = l1 ++ o :: l2 → o ∉ l1 →
      observadores_de (snd (remover s1 o w)) s2 = l1 ++ l2)
  ∧ (let '(s1, s2, (r, w, tr)) := demo_dois_sujeitos 2 in
     s1 ≠ s2 ∧ r = Ok tt ∧ tr = [mkVisita 10 s2 (Some 2%Z)]).
Proof.
  split_and!.
  - done.
  - intros w s1 s2 o l1 l2 Hl Hnin.
    by rewrite (remover_presente s1 o w l1 l2).
  - by vm_compute.
Qed.

(** C7 fails on the code.  The loop of [notificar] walks the live list by
    index, with no copy taken when the pass begins.  With the subscribers
    12 (whose [atualizar] unsubscribes itself) and 11 (the driver's
    observer B) and the state 2, the pass returns normally after the single
    call to 12, whatever the bound: 11 was registered when the pass began,
    is still registered when it ends, and was not visited. *)
Lemma C7_removal_changes_the_pass :
  observadores_de (snd (mundo_com [12; 11]%positive 2)) 1 = [12; 11]%positive
  ∧ ∀ k, ∃ w',
      notificar classes_demo (S k) 1 (snd (mundo_com [12; 11]%positive 2))
      = (Ok tt, w', [mkVisita 12 1 (Some 2%Z)])
      ∧ observadores_de w' 1 = [11%positive]
      ∧ 11%positive ∉ map observador [mkVisita 12 1 (Some 2%Z)].
Proof.
  split; [reflexivity|]. intros k.
  destruct (notificar_desinscreve classes_demo 1%positive (Some 2%Z)
              (snd (mundo_com [12; 11]%positive 2)) 12%positive [] [11%positive] k)
    as (w' & Hrun & Hl').
  - reflexivity.
  - reflexivity.
  - apply not_elem_of_nil.
  - reflexivity.
  - constructor.
  - repeat constructor; by apply concreto_comportado.
  - exists w'. split_and!; [exact Hrun | exact Hl' |].
    simpl. intros Hin. apply list_elem_of_singleton in Hin. discriminate Hin.
Qed.

(** C9.  A new subject has the state [None].  In a store where the
    subject's state is [None], the [atualizar] of an observer of class
    [ObservadorConcretoA] raises [TypeError], and so does [notificar] when
    such an observer is among concrete subscribers; hence a pass over
    concrete subscribers that returns had an integer state.  Once
    [executar_logica_principal] has assigned the state, its pass over the
    same subscribers returns. *)
Theorem C9_unset_state_makes_notificar_raise
    (classe_de : Obj → Observador) w s (a : Obj) (fuel : nat) (r : Z) :
  estado_de w s = None →
  classe_de a = ObservadorConcretoA →
  a ∈ observadores_de w s →
  Forall (λ o, concreto (classe_de o) = true) (observadores_de w s) →
  estado_de (snd (novo_Sujeito w)) (fst (novo_Sujeito w)) = None
  ∧ atualizar classe_de a s w = (Raise TypeError, w)
  ∧ fst (fst (notificar classe_de (S fuel) s w)) = Raise TypeError
  ∧ (∀ w2 fuel2, observadores_de w2 s = observadores_de w s →
       fst (fst (notificar classe_de fuel2 s w2)) = Ok tt →
       ∃ n, estado_de w2 s = Some n)
  ∧ fst (fst (executar_logica_principal classe_de
                (length (observadores_de w s) + fuel) r s w)) = Ok tt.
Proof.
  intros Hest Ha Hin Hall. split_and!.
  - unfold novo_Sujeito, estado_de. simpl. by rewrite lookup_insert_eq.
  - apply concreto_None; [by rewrite Ha | done].
  - destruct (observadores_de w s) as [|o l] eqn:Hl;
      [by apply not_elem_of_nil in Hin|].
    apply Forall_cons in Hall as [Ho _]. unfold notificar.
    rewrite (notificar_laco_passo _ _ _ _ _ _ o) by (unfold observadores_de in *; simpl; by rewrite Hl).
    by rewrite concreto_None.
  - intros w2 fuel2 Hl2 Hok.
    destruct (estado_de w2 s) as [n|] eqn:Hest2; [by exists n|]. exfalso.
    destruct (observadores_de w s) as [|o l] eqn:Hl;
      [by apply not_elem_of_nil in Hin|].
    apply Forall_cons in Hall as [Ho _]. unfold notificar in Hok.
    destruct fuel2 as [|fuel2].
    + simpl in Hok. unfold observadores_de in *. simpl in Hok.
      rewrite Hl2 in Hok. simpl in Hok. discriminate Hok.
    + rewrite (notificar_laco_passo _ _ _ _ _ _ o) in Hok
        by (unfold observadores_de in *; simpl; by rewrite Hl2).
      rewrite concreto_None in Hok by done. discriminate Hok.
  - unfold executar_logica_principal.
    match goal with |- fst (fst (notificar _ _ _ ?w1)) = _ => set (w' := w1) end.
    destruct (notificar_comportados classe_de s w' (Some r) (length (observadores_de w s) + fuel))
      as (w'' & Hrun & _).
    + unfold estado_de, w'. simpl. by rewrite lookup_insert_eq.
    + eapply Forall_impl; [exact Hall|]. intros o Ho. by apply concreto_comportado.
    + change (observadores_de w' s) with (observadores_de w s). lia.
    + by rewrite Hrun.
Qed.

Lemma C9_unset_state_makes_notificar_raise_witness :
  estado_de (snd (novo_Sujeito (snd demo_sem_estado)))
            (fst (novo_Sujeito (snd demo_sem_estado))) = None
  ∧ atualizar classes_demo 10 1 (snd demo_sem_estado)
    = (Raise TypeError, snd demo_sem_estado)
  ∧ fst (fst (notificar classes_demo 1 1 (snd demo_sem_estado))) = Raise TypeError
  ∧ fst (fst (executar_logica_principal classes_demo 2 2 1 (snd demo_sem_estado)))
    = Ok tt.
Proof.
  destruct (C9_unset_state_makes_notificar_raise classes_demo
              (snd demo_sem_estado) 1%positive 10%positive 0%nat 2%Z)
    as (Hnovo & Hup & Hnot & _ & Hexec).
  - reflexivity.
  - reflexivity.
  - left.
  - repeat constructor.
  - split_and!; [exact Hnovo | exact Hup | exact Hnot | exact Hexec].
Defined.

End ObserverClaims.

(** ** Failing removals *)
Section FailingRemovals.

(** C8.  Both removals look the argument up before they change anything.
    [Composite.remove] with a component that is not among the children
    raises [ValueError] and the store is the one before the call: the
    children list and the argument's parent reference are as they were.
    [SujeitoConcreto.remover] with an observer that is not registered
    raises [ValueError] and the store is the one before the call: the
    subscriber list is as it was and nothing was printed. *)
Theorem C8_failing_removals_change_nothing
    (h : gmap Obj Composite.Component) (b c : Obj) (ob : Composite.Component)
    (cs : list Obj) (w : Observer.Mundo) (s o : Obj) :
  h !! b = Some ob → Composite.classe ob = Composite.Composite cs →
  is_Some (h !! c) → c ∉ cs →
  o ∉ Observer.observadores_de w s →
  Composite.remove b c h = (Raise ValueError, h)
  ∧ Composite.filhos (snd (Composite.remove b c h)) b = cs
  ∧ snd (Composite.remove b c h) !! c = h !! c
  ∧ Observer.remover s o w = (Raise ValueError, w)
  ∧ Observer.observadores_de (snd (Observer.remover s o w)) s
    = Observer.observadores_de w s
  ∧ Observer.saida (snd (Observer.remover s o w)) = Observer.saida w.
Proof.
  intros Hb Hcl [oc Hc] Hnin Hno.
  assert (Composite.remove b c h = (Raise ValueError, h)) as Hrm.
  { apply list_remove_first_None in Hnin.
    unfold Composite.remove. by rewrite Hb, Hc, Hcl, Hnin. }
  rewrite Hrm, (remover_ausente s o w Hno). simpl.
  split_and!; try done.
  unfold Composite.filhos. by rewrite Hb, Hcl.
Qed.

Lemma C8_failing_removals_change_nothing_witness :
  Composite.remove 2 1 Composite.folha_e_galhos
  = (Raise ValueError, Composite.folha_e_galhos)
  ∧ Observer.remover 1 12 (snd (Observer.mundo_com [10; 11]%positive 2))
    = (Raise ValueError, snd (Observer.mundo_com [10; 11]%positive 2)).
Proof.
  destruct (C8_failing_removals_change_nothing
              Composite.folha_e_galhos 2%positive 1%positive
              (Composite.mkComponent (Composite.Composite []) None) []
              (snd (Observer.mundo_com [10; 11]%positive 2)) 1%positive 12%positive)
    as (Hrm & _ & _ & Hrv & _).
  - reflexivity.
  - reflexivity.
  - eexists; reflexivity.
  - apply not_elem_of_nil.
  - intros Hin. apply elem_of_cons in Hin as [Heq|Hin]; [discriminate Heq|].
    apply list_elem_of_singleton in Hin. discriminate Hin.
  - split; [exact Hrm | exact Hrv].
Defined.

End FailingRemovals.

(** * Further properties of the Composite tree *)

(** ** What [add] and [remove] change, attribute by attribute *)
Section CompositeEffects.
Import Composite.

Implicit Types (h : gmap Obj Component) (b c o x y : Obj).

Lemma classe_set_parent h o r x :
  classe <$> set_parent o r h !! x = classe <$> h !! x.
Proof. rewrite lookup_set_parent. case_decide; [|done]. by destruct (h !! x). Qed.

Lemma classe_set_children h o cs x :
  classe <$> set_children o cs h !! x
  = if decide (o = x) then (λ _, Composite cs) <$> h !! x else classe <$> h !! x.
Proof. rewrite lookup_set_children. case_decide; [|done]. by destruct (h !! x). Qed.

Lemma parent_set_parent h o r x :
  _parent <$> set_parent o r h !! x
  = if decide (o = x) then (λ _, Some r) <$> h !! x else _parent <$> h !! x.
Proof. rewrite lookup_set_parent. case_decide; [|done]. by destruct (h !! x). Qed.

Lemma parent_set_children h o cs x :
  _parent <$> set_children o cs h !! x = _parent <$> h !! x.
Proof. rewrite lookup_set_children. case_decide; [|done]. by destruct (h !! x). Qed.

(** The methods that read the store read one attribute each. *)
Lemma filhos_classe h x :
  filhos h x = match classe <$> h !! x with
               | Some (Composite cs) => cs
               | _ => []
               end.
Proof. unfold filhos. by destruct (h !! x). Qed.

Lemma is_composite_classe h x :
  is_composite x h = match classe <$> h !! x with
                     | Some (Composite _) => Ok true
                     | Some Leaf => Ok false
                     | None => Raise ObjetoInexistente
                     end.
Proof. unfold is_composite. by destruct (h !! x). Qed.

Lemma parent_lido h x (r : Ref) :
  _parent <$> h !! x = Some (Some r) → parent x h = (Ok r, h).
Proof.
  unfold parent. destruct (h !! x) as [ob|]; [|done]. simpl.
  intros [= Hp]. by rewrite Hp.
Qed.

Lemma operation_classe (n : nat) h x :
  operation (S n) h x
  = match classe <$> h !! x with
    | None => Raise ObjetoInexistente
    | Some Leaf => Ok "Folha"
    | Some (Composite cs) =>
        match coletar (operation n h) cs with
        | Ok results => Ok ("Galho(" +:+ String.concat "+" results +:+ ")")
        | Raise e => Raise e
        | Fuel => Fuel
        end
    end.
Proof. simpl. by destruct (h !! x). Qed.

Lemma coletar_ext (f g : Obj → Res string) (cs : list Obj) :
  (∀ y, y ∈ cs → f y = g y) → coletar f cs = coletar g cs.
Proof.
  induction cs as [|y cs IH]; intros Hfg; [done|]. simpl.
  rewrite (Hfg y) by left. rewrite IH; [done|].
  intros z Hz. apply Hfg. by right.
Qed.

(** [add] on a composite, attribute by attribute. *)
Lemma add_efeito h b c ob (cs : list Obj) :
  h !! b = Some ob → classe ob = Composite cs → is_Some (h !! c) →
  add b c h = (Ok tt, snd (add b c h))
  ∧ classe <$> snd (add b c h) !! b = Some (Composite (cs ++ [c]))
  ∧ (∀ x, x ≠ b → classe <$> snd (add b c h) !! x = classe <$> h !! x)
  ∧ _parent <$> snd (add b c h) !! c = Some (Some (Ptr b))
  ∧ (∀ x, x ≠ c → _parent <$> snd (add b c h) !! x = _parent <$> h !! x).
Proof.
  intros Hb Hcl Hc. rewrite (add_composite b c h ob cs Hb Hcl Hc). simpl.
  destruct Hc as [oc Hc]. split_and!.
  - done.
  - rewrite classe_set_parent, classe_set_children, decide_True by done.
    by rewrite Hb.
  - intros x Hx. rewrite classe_set_parent, classe_set_children.
    by rewrite decide_False.
  - rewrite parent_set_parent, decide_True by done.
    rewrite lookup_set_children. case_decide; subst.
    + by rewrite Hb.
    + by rewrite Hc.
  - intros x Hx. rewrite parent_set_parent, decide_False by done.
    apply parent_set_children.
Qed.

(** [remove] on a composite that lists the argument, attribute by
    attribute. *)
Lemma remove_efeito h b c ob (cs cs' : list Obj) :
  h !! b = Some ob → classe ob = Composite cs → is_Some (h !! c) →
  list_remove_first c cs = Some cs' →
  remove b c h = (Ok tt, snd (remove b c h))
  ∧ classe <$> snd (remove b c h) !! b = Some (Composite cs')
  ∧ (∀ x, x ≠ b → classe <$> snd (remove b c h) !! x = classe <$> h !! x)
  ∧ _parent <$> snd (remove b c h) !! c = Some (Some PyNone)
  ∧ (∀ x, x ≠ c → _parent <$> snd (remove b c h) !! x = _parent <$> h !! x).
Proof.
  intros Hb Hcl [oc Hc] Hrm. unfold remove. rewrite Hb, Hc, Hcl, Hrm. simpl.
  split_and!.
  - done.
  - rewrite classe_set_parent, classe_set_children, decide_True by done.
    by rewrite Hb.
  - intros x Hx. rewrite classe_set_parent, classe_set_children.
    by rewrite decide_False.
  - rewrite parent_set_parent, decide_True by done.
    rewrite lookup_set_children. case_decide; subst.
    + by rewrite Hb.
    + by rewrite Hc.
  - intros x Hx. rewrite parent_set_parent, decide_False by done.
    apply parent_set_children.
Qed.

(** Whether an object is a leaf or a composite is settled at its creation:
    no call changes it. *)
Lemma is_composite_add b c h x : is_composite x (snd (add b c h)) = is_composite x h.
Proof.
  rewrite !is_composite_classe.
  unfold add. destruct (h !! b) as [ob|] eqn:Hb; [|done].
  destruct (h !! c) as [oc|] eqn:Hc; [|done].
  destruct (classe ob) as [|cs] eqn:Hcl; [done|]. simpl.
  rewrite classe_set_parent, classe_set_children.
  case_decide; [|done]. subst. rewrite Hb. simpl. by rewrite Hcl.
Qed.

Lemma is_composite_remove b c h x :
  is_composite x (snd (remove b c h)) = is_composite x h.
Proof.
  rewrite !is_composite_classe.
  unfold remove. destruct (h !! b) as [ob|] eqn:Hb; [|done].
  destruct (h !! c) as [oc|] eqn:Hc; [|done].
  destruct (classe ob) as [|cs] eqn:Hcl; [done|].
  destruct (list_remove_first c cs) as [cs'|]; [|done]. simpl.
  rewrite classe_set_parent, classe_set_children.
  case_decide; [|done]. subst. rewrite Hb. simpl. by rewrite Hcl.
Qed.

Lemma is_composite_exec (ops : list Op) h x :
  is_composite x (exec ops h) = is_composite x h.
Proof.
  revert h. induction ops as [|op ops IH]; intros h; [done|].
  unfold exec. simpl. fold (exec ops (exec_op op h)). rewrite IH.
  destruct op; [apply is_composite_add | apply is_composite_remove].
Qed.

(** [operation] on an object from which the receiver of an [add] is not
    reached downwards is the same before and after the call. *)
Lemma operation_add_fora (n : nat) b c h x :
  ¬ rtc (filho h) b x →
  operation n (snd (add b c h)) x = operation n h x.
Proof.
  revert x. induction n as [|n IH]; intros x Hx; [done|].
  rewrite !operation_classe.
  assert (x ≠ b) as Hne by (intros ->; apply Hx, rtc_refl).
  assert (classe <$> snd (add b c h) !! x = classe <$> h !! x) as ->.
  { unfold add. destruct (h !! b) as [ob|] eqn:Hb; [|done].
    destruct (h !! c) as [oc|] eqn:Hc; [|done].
    destruct (classe ob) as [|cs] eqn:Hcl; [done|]. simpl.
    rewrite classe_set_parent, classe_set_children. by rewrite decide_False. }
  destruct (classe <$> h !! x) as [[|cs]|] eqn:Hcl; [done| |done].
  rewrite (coletar_ext (operation n (snd (add b c h))) (operation n h)); [done|].
  intros y Hy. apply IH. intros Hby. apply Hx.
  eapply rtc_r; [exact Hby|]. unfold filho. by rewrite filhos_classe, Hcl.
Qed.

End CompositeEffects.

(** ** Building and taking apart trees *)
Section CompositeExtras.
Import Composite.

Implicit Types (h : gmap Obj Component) (b c o x y : Obj).

(** X1.  [b.add(c)] on a composite [b] returns, puts [c] at the end of
    [b]'s children and makes [c.parent] read [b]; the children of every
    other object and the parent of every other object are as before. *)
Theorem X1_add_appends_child_and_sets_parent h b c ob (cs : list Obj) :
  h !! b = Some ob → classe ob = Composite cs → is_Some (h !! c) →
  add b c h = (Ok tt, snd (add b c h))
  ∧ filhos (snd (add b c h)) b = cs ++ [c]
  ∧ parent c (snd (add b c h)) = (Ok (Ptr b), snd (add b c h))
  ∧ (∀ x, x ≠ b → filhos (snd (add b c h)) x = filhos h x)
  ∧ (∀ x, x ≠ c → fst (parent x (snd (add b c h))) = fst (parent x h)).
Proof.
  intros Hb Hcl Hc.
  destruct (add_efeito h b c ob cs Hb Hcl Hc) as (Hok & Hclb & Hclx & Hpc & Hpx).
  split_and!.
  - done.
  - by rewrite filhos_classe, Hclb.
  - by apply parent_lido.
  - intros x Hx. by rewrite !filhos_classe, Hclx.
  - intros x Hx. specialize (Hpx x Hx). unfold parent.
    destruct (snd (add b c h) !! x) as [o1|], (h !! x) as [o2|];
      simpl in Hpx; simplify_eq; [|done].
    rewrite Hpx. by destruct (_parent o2).
Qed.

Lemma X1_add_appends_child_and_sets_parent_witness :
  filhos (snd (add 2 1 folha_e_galhos)) 2%positive = [1%positive]
  ∧ parent 1 (snd (add 2 1 folha_e_galhos))
    = (Ok (Ptr 2), snd (add 2 1 folha_e_galhos)).
Proof.
  destruct (X1_add_appends_child_and_sets_parent folha_e_galhos 2%positive 1%positive
              (mkComponent (Composite []) None) [])
    as (_ & Hf & Hp & _).
  - reflexivity.
  - reflexivity.
  - eexists; reflexivity.
  - split; [exact Hf | exact Hp].
Defined.

(** X2.  No constructor assigns [_parent]: on a new [Leaf] or [Composite]
    the [parent] getter raises [AttributeError].  The new object has an
    address no object had, a new composite has no children, and the objects
    there were are untouched. *)
Theorem X2_parent_of_new_object_is_unset h (k : Classe) :
  h !! fst (novo k h) = None
  ∧ parent (fst (novo k h)) (snd (novo k h)) = (Raise AttributeError, snd (novo k h))
  ∧ filhos (snd (novo_Composite h)) (fst (novo_Composite h)) = []
  ∧ is_composite (fst (novo_Leaf h)) (snd (novo_Leaf h)) = Ok false
  ∧ is_composite (fst (novo_Composite h)) (snd (novo_Composite h)) = Ok true
  ∧ (∀ x, is_Some (h !! x) → snd (novo k h) !! x = h !! x).
Proof.
  assert (h !! fresh (dom h) = None) as Hfresh.
  { apply not_elem_of_dom, is_fresh. }
  unfold novo_Leaf, novo_Composite, novo, parent, filhos, is_composite. simpl.
  rewrite !lookup_insert_eq. split_and!; try done.
  intros x [ox Hx]. rewrite lookup_insert_ne; [done|].
  intros Heq. rewrite Heq in Hfresh. congruence.
Qed.

(** X3.  [b.add(c)] followed by [b.remove(c)], on a composite [b].  When
    [c] was not a child, every children list is back to what it was, while
    [c.parent] now reads [None] (whatever it read before).  When [c] was
    already a child, the pair of calls drops its first, older entry and
    leaves the new one at the end. *)
Theorem X3_add_then_remove h b c ob (cs : list Obj) :
  h !! b = Some ob → classe ob = Composite cs → is_Some (h !! c) →
  fst (remove b c (snd (add b c h))) = Ok tt
  ∧ parent c (snd (remove b c (snd (add b c h))))
    = (Ok PyNone, snd (remove b c (snd (add b c h))))
  ∧ (c ∉ cs → ∀ x, filhos (snd (remove b c (snd (add b c h)))) x = filhos h x)
  ∧ (∀ l1 l2, cs = l1 ++ c :: l2 → c ∉ l1 →
       filhos (snd (remove b c (snd (add b c h)))) b = l1 ++ l2 ++ [c]).
Proof.
  intros Hb Hcl Hc.
  destruct (add_efeito h b c ob cs Hb Hcl Hc) as (_ & Hclb & Hclx & _ & _).
  set (h1 := snd (add b c h)) in *.
  destruct (h1 !! b) as [ob1|] eqn:Hb1; [|done]. simpl in Hclb.
  assert (classe ob1 = Composite (cs ++ [c])) as Hcl1 by congruence.
  assert (is_Some (h1 !! c)) as Hc1 by by apply add_is_Some.
  assert (∃ cs', list_remove_first c (cs ++ [c]) = Some cs'
                 ∧ (c ∉ cs → cs' = cs)
                 ∧ (∀ l1 l2, cs = l1 ++ c :: l2 → c ∉ l1 → cs' = l1 ++ l2 ++ [c]))
    as (cs' & Hrm & Hfresh & Hdup).
  { destruct (decide (c ∈ cs)) as [Hin|Hnin].
    - apply list_elem_of_split_l in Hin as (l1 & l2 & -> & Hnin1).
      exists (l1 ++ l2 ++ [c]). split_and!.
      + rewrite <- app_assoc. simpl. by rewrite list_remove_first_split.
      + intros Hno. exfalso. apply Hno. rewrite elem_of_app, elem_of_cons. tauto.
      + intros l1' l2' Heq Hnin1'.
        assert (list_remove_first c (l1 ++ c :: l2) = Some (l1 ++ l2)) as H1
          by by apply list_remove_first_split.
        rewrite Heq in H1.
        rewrite list_remove_first_split in H1 by done.
        rewrite !app_assoc. congruence.
    - exists cs. split_and!.
      + rewrite <- (app_nil_r cs) at 2. by apply list_remove_first_split.
      + done.
      + intros l1 l2 -> _. exfalso. apply Hnin.
        rewrite elem_of_app, elem_of_cons. tauto. }
  destruct (remove_efeito h1 b c ob1 (cs ++ [c]) cs' Hb1 Hcl1 Hc1 Hrm)
    as (Hok & Hclb2 & Hclx2 & Hpc2 & _).
  split_and!.
  - by rewrite Hok.
  - by apply parent_lido.
  - intros Hnin x. rewrite !filhos_classe.
    destruct (decide (x = b)) as [->|Hne].
    + rewrite Hclb2, Hb. simpl. by rewrite Hcl, (Hfresh Hnin).
    + by rewrite Hclx2, Hclx.
  - intros l1 l2 Heq Hnin. rewrite filhos_classe, Hclb2.
    by rewrite (Hdup l1 l2 Heq Hnin).
Qed.

Lemma X3_add_then_remove_witness :
  (∀ x, filhos (snd (remove 2 1 (snd (add 2 1 folha_e_galhos)))) x
        = filhos folha_e_galhos x)
  ∧ filhos (snd (remove 2 1 (snd (add 2 1 (add_all 2 [1; 3]%positive folha_e_galhos)))))
      2%positive = [3; 1]%positive.
Proof.
  split.
  - destruct (X3_add_then_remove folha_e_galhos 2%positive 1%positive
                (mkComponent (Composite []) None) [])
      as (_ & _ & Hback & _).
    + reflexivity.
    + reflexivity.
    + eexists; reflexivity.
    + apply Hback, not_elem_of_nil.
  - destruct (X3_add_then_remove (add_all 2 [1; 3]%positive folha_e_galhos)
                2%positive 1%positive
                (mkComponent (Composite [1; 3]%positive) None) [1; 3]%positive)
      as (_ & _ & _ & Hdup).
    + reflexivity.
    + reflexivity.
    + eexists; reflexivity.
    + apply (Hdup [] [3%positive]); [reflexivity | apply not_elem_of_nil].
Defined.

(** X4.  [client_code2(component1, component2)].  On a leaf it adds
    nothing: the store is unchanged and the text printed is
    "RESULTADO: Folha", whatever the second argument.  On a composite [b]
    of a well-founded store, with [c] an object from which [b] is not
    reached downwards: [c] is added, and the text printed is
    "RESULTADO: Galho(" followed by the results the old children had and
    the result of [c], joined with "+", followed by ")". *)
Theorem X4_client_code2_adds_only_to_composites h b c ob (fuel : nat) :
  h !! b = Some ob →
  (classe ob = Leaf → client_code2 (S fuel) b c h = (Ok "RESULTADO: Folha", h))
  ∧ (∀ (cs : list Obj) (rs : list string) (r : string),
       classe ob = Composite cs → is_Some (h !! c) →
       bem_fundado h → ¬ rtc (filho h) b c →
       Forall2 (λ x rx, operation fuel h x = Ok rx) cs rs →
       operation fuel h c = Ok r →
       client_code2 (S fuel) b c h
       = (Ok ("RESULTADO: Galho(" +:+ String.concat "+" (rs ++ [r]) +:+ ")"),
          snd (add b c h))).
Proof.
  intros Hb. split.
  - intros Hcl. unfold client_code2, client_code, is_composite. rewrite Hb, Hcl.
    simpl. by rewrite Hb, Hcl.
  - intros cs rs r Hcl Hc Hwf Hguard Hrs Hr.
    destruct (add_efeito h b c ob cs Hb Hcl Hc) as (Hok & Hclb & _).
    unfold client_code2, client_code, is_composite. rewrite Hb, Hcl, Hok.
    rewrite operation_classe, Hclb.
    rewrite (coletar_ext _ (operation fuel h)).
    + assert (coletar (operation fuel h) (cs ++ [c]) = Ok (rs ++ [r])) as ->; [|done].
      apply coletar_Forall2, Forall2_app; [done|]. by constructor.
    + intros y Hy. apply operation_add_fora.
      apply elem_of_app in Hy as [Hy|Hy].
      * intros Hby. apply (bem_fundado_aciclico h Hwf b).
        unfold ancestral. eapply tc_rtc_l; [exact Hby|].
        apply tc_once. unfold filho, filhos. by rewrite Hb, Hcl.
      * apply list_elem_of_singleton in Hy. by subst.
Qed.

Lemma X4_client_code2_adds_only_to_composites_witness :
  client_code2 2 1 2 folha_e_galhos = (Ok "RESULTADO: Folha", folha_e_galhos)
  ∧ client_code2 2 2 1 (snd (add 2 3 folha_e_galhos))
    = (Ok "RESULTADO: Galho(Galho()+Folha)",
       snd (add 2 1 (snd (add 2 3 folha_e_galhos)))).
Proof.
  split.
  - apply (proj1 (X4_client_code2_adds_only_to_composites folha_e_galhos
                    1%positive 2%positive (mkComponent Leaf None) 1%nat eq_refl)).
    reflexivity.
  - apply (proj2 (X4_client_code2_adds_only_to_composites
                    (snd (add 2 3 folha_e_galhos)) 2%positive 1%positive
                    (mkComponent (Composite [3%positive]) None) 1%nat eq_refl)
             [3%positive] ["Galho()"] "Folha").
    + reflexivity.
    + eexists; reflexivity.
    + apply bem_fundado_add.
      * apply sem_filhos_invariante, sem_filhos_folha_e_galhos.
      * intros Hr. apply rtc_filho_folha in Hr; [discriminate Hr|].
        apply sem_filhos_folha_e_galhos.
    + intros Hr. apply rtc_filho_folha in Hr; [discriminate Hr | reflexivity].
    + repeat constructor.
    + reflexivity.
Defined.

(** X5.  [remove] takes out one entry only.  When [c] is listed more than
    once in [b], [b.remove(c)] returns, the later entries stay, so [c] is
    still a child of [b], and yet [c.parent] reads [None]. *)
Theorem X5_remove_keeps_later_entries h b c ob (l1 l2 : list Obj) :
  h !! b = Some ob → classe ob = Composite (l1 ++ c :: l2) →
  is_Some (h !! c) → c ∉ l1 → c ∈ l2 →
  remove b c h = (Ok tt, snd (remove b c h))
  ∧ filhos (snd (remove b c h)) b = l1 ++ l2
  ∧ c ∈ filhos (snd (remove b c h)) b
  ∧ parent c (snd (remove b c h)) = (Ok PyNone, snd (remove b c h)).
Proof.
  intros Hb Hcl Hc Hnin Hin.
  destruct (remove_efeito h b c ob (l1 ++ c :: l2) (l1 ++ l2) Hb Hcl Hc)
    as (Hok & Hclb & _ & Hpc & _); [by apply list_remove_first_split|].
  assert (filhos (snd (remove b c h)) b = l1 ++ l2) as Hf
    by by rewrite filhos_classe, Hclb.
  split_and!; [done | done | | by apply parent_lido].
  rewrite Hf, elem_of_app. by right.
Qed.

Lemma X5_remove_keeps_later_entries_witness :
  1%positive ∈ filhos (snd (remove 2 1 (add_all 2 [1; 1]%positive folha_e_galhos))) 2%positive
  ∧ parent 1 (snd (remove 2 1 (add_all 2 [1; 1]%positive folha_e_galhos)))
    = (Ok PyNone, snd (remove 2 1 (add_all 2 [1; 1]%positive folha_e_galhos))).
Proof.
  destruct (X5_remove_keeps_later_entries (add_all 2 [1; 1]%positive folha_e_galhos)
              2%positive 1%positive
              (mkComponent (Composite [1; 1]%positive) None) [] [1%positive])
    as (_ & _ & Hin & Hp).
  - reflexivity.
  - reflexivity.
  - eexists; reflexivity.
  - apply not_elem_of_nil.
  - left.
  - split; [exact Hin | exact Hp].
Defined.

(** X6.  [add] does not detach its argument from where it was.  After
    [b1.add(c)] and then [b2.add(c)] on two composites, [c] is a child of
    both and [c.parent] reads [b2].  A later [b1.remove(c)] (with [c] not
    listed in [b1] before) leaves [c] a child of [b2] with [c.parent]
    reading [None]. *)
Theorem X6_add_does_not_detach h b1 b2 c ob1 ob2 (cs1 cs2 : list Obj) :
  b1 ≠ b2 →
  h !! b1 = Some ob1 → classe ob1 = Composite cs1 →
  h !! b2 = Some ob2 → classe ob2 = Composite cs2 →
  is_Some (h !! c) →
  filhos (snd (add b2 c (snd (add b1 c h)))) b1 = cs1 ++ [c]
  ∧ filhos (snd (add b2 c (snd (add b1 c h)))) b2 = cs2 ++ [c]
  ∧ parent c (snd (add b2 c (snd (add b1 c h))))
    = (Ok (Ptr b2), snd (add b2 c (snd (add b1 c h))))
  ∧ (c ∉ cs1 →
     fst (remove b1 c (snd (add b2 c (snd (add b1 c h))))) = Ok tt
     ∧ filhos (snd (remove b1 c (snd (add b2 c (snd (add b1 c h)))))) b2 = cs2 ++ [c]
     ∧ fst (parent c (snd (remove b1 c (snd (add b2 c (snd (add b1 c h)))))))
       = Ok PyNone).
Proof.
  intros Hne Hb1 Hcl1 Hb2 Hcl2 Hc.
  destruct (add_efeito h b1 c ob1 cs1 Hb1 Hcl1 Hc) as (_ & Hk1 & Hkx1 & _ & _).
  set (h1 := snd (add b1 c h)) in *.
  assert (classe <$> h1 !! b2 = Some (Composite cs2)) as Hk2.
  { rewrite Hkx1 by done. by rewrite Hb2, <- Hcl2. }
  destruct (h1 !! b2) as [ob2'|] eqn:Hb2'; [|done].
  assert (classe ob2' = Composite cs2) as Hcl2' by (simpl in Hk2; congruence).
  assert (is_Some (h1 !! c)) as Hc1 by by apply add_is_Some.
  destruct (add_efeito h1 b2 c ob2' cs2 Hb2' Hcl2' Hc1)
    as (_ & Hk2' & Hkx2 & Hp2 & _).
  set (h2 := snd (add b2 c h1)) in *.
  assert (classe <$> h2 !! b1 = Some (Composite (cs1 ++ [c]))) as Hk1'
    by by rewrite Hkx2.
  split_and!.
  - by rewrite filhos_classe, Hk1'.
  - by rewrite filhos_classe, Hk2'.
  - by apply parent_lido.
  - intros Hnin.
    destruct (h2 !! b1) as [ob1'|] eqn:Hb1'; [|done].
    assert (classe ob1' = Composite (cs1 ++ [c])) as Hcl1'
      by (simpl in Hk1'; congruence).
    assert (is_Some (h2 !! c)) as Hc2 by by apply add_is_Some.
    destruct (remove_efeito h2 b1 c ob1' (cs1 ++ [c]) cs1 Hb1' Hcl1' Hc2)
      as (Hok & _ & Hkx3 & Hp3 & _).
    { rewrite <- (app_nil_r cs1) at 2. by apply list_remove_first_split. }
    split_and!.
    + by rewrite Hok.
    + rewrite filhos_classe, Hkx3 by done. by rewrite Hk2'.
    + by rewrite (parent_lido _ _ PyNone Hp3).
Qed.

Lemma X6_add_does_not_detach_witness :
  filhos (snd (add 3 1 (snd (add 2 1 folha_e_galhos)))) 2%positive = [1%positive]
  ∧ filhos (snd (add 3 1 (snd (add 2 1 folha_e_galhos)))) 3%positive = [1%positive]
  ∧ parent 1 (snd (add 3 1 (snd (add 2 1 folha_e_galhos))))
    = (Ok (Ptr 3), snd (add 3 1 (snd (add 2 1 folha_e_galhos)))).
Proof.
  destruct (X6_add_does_not_detach folha_e_galhos 2%positive 3%positive 1%positive
              (mkComponent (Composite []) None) (mkComponent (Composite []) None) [] [])
    as (H1 & H2 & H3 & _).
  - discriminate.
  - reflexivity.
  - reflexivity.
  - reflexivity.
  - reflexivity.
  - eexists; reflexivity.
  - split_and!; [exact H1 | exact H2 | exact H3].
Defined.

(** X7.  Whether an object is a leaf or a composite never changes: after
    any sequence of [add] and [remove] calls, on any receivers and
    arguments, [is_composite] answers as before, and a leaf has no
    children. *)
Theorem X7_leaf_and_composite_are_permanent (ops : list Op) h x :
  is_composite x (exec ops h) = is_composite x h
  ∧ (is_composite x h = Ok false → filhos (exec ops h) x = []).
Proof.
  pose proof (is_composite_exec ops h x) as Hex. split; [done|].
  intros Hleaf. rewrite <- Hex in Hleaf.
  rewrite is_composite_classe in Hleaf. rewrite filhos_classe.
  by destruct (classe <$> exec ops h !! x) as [[|cs]|].
Qed.

Lemma X7_leaf_and_composite_are_permanent_witness :
  is_composite 1 (exec [Add 1 2; Add 2 1; Remove 1 2; Add 1 1]%positive folha_e_galhos)
  = Ok false
  ∧ filhos (exec [Add 1 2; Add 2 1; Remove 1 2; Add 1 1]%positive folha_e_galhos)
      1%positive = [].
Proof.
  destruct (X7_leaf_and_composite_are_permanent
              [Add 1 2; Add 2 1; Remove 1 2; Add 1 1]%positive folha_e_galhos 1%positive)
    as [Hk Hf].
  split; [rewrite Hk; reflexivity | apply Hf; reflexivity].
Defined.

End CompositeExtras.

(** * Further properties of the Observer registry *)

(** ** Passes over the concrete observers *)
Section ObserverEffects.
Import Observer.

Variable classe_de : Obj → Observador.

Implicit Types (w : Mundo) (s o : Obj) (e : option Z) (l : list Obj).

(** A concrete observer only prints: whether it returns or raises, the
    subscriber list and every subject's state are as before. *)
Lemma concreto_so_imprime s o w :
  concreto (classe_de o) = true →
  _observadores (snd (atualizar classe_de o s w)) = _observadores w
  ∧ instancias (snd (atualizar classe_de o s w)) = instancias w.
Proof.
  intros Hc. unfold atualizar. destruct (classe_de o); [| |done].
  - unfold atualizar_A. destruct (estado_de w s) as [n|]; [|done].
    by destruct (n <? 3)%Z.
  - unfold atualizar_B. destruct (estado_de w s) as [n|]; [|done].
    by destruct ((n =? 0)%Z || (n >=? 2)%Z)%bool.
Qed.

Lemma notificar_laco_concretos (fuel : nat) :
  ∀ (i : nat) s w (tr : list Visita),
    Forall (λ o, concreto (classe_de o) = true) (_observadores w) →
    _observadores (snd (fst (notificar_laco classe_de fuel i s w tr))) = _observadores w
    ∧ instancias (snd (fst (notificar_laco classe_de fuel i s w tr))) = instancias w.
Proof.
  induction fuel as [|fuel IH]; intros i s w tr Hall.
  - simpl. by destruct (observadores_de w s !! i).
  - destruct (observadores_de w s !! i) as [o|] eqn:Hi.
    + rewrite (notificar_laco_passo classe_de fuel i s w tr o Hi).
      assert (concreto (classe_de o) = true) as Ho.
      { rewrite Forall_forall in Hall. apply Hall.
        apply list_elem_of_lookup. by exists i. }
      destruct (concreto_so_imprime s o w Ho) as [Hl Hm].
      destruct (atualizar classe_de o s w) as [[u|ex|] w1]; simpl in Hl, Hm;
        [|done..].
      destruct (IH (S i) s w1 (tr ++ [mkVisita o s (estado_de w s)]))
        as [Hl' Hm']; [by rewrite Hl|].
      split; congruence.
    + simpl. by rewrite Hi.
Qed.

(** The pass over an empty subscriber list. *)
Lemma notificar_vazio (fuel : nat) s w :
  observadores_de w s = [] →
  notificar classe_de fuel s w
  = (Ok tt, imprimir "Sujeito: Notificando observadores..." w, []).
Proof.
  intros Hl. unfold notificar. apply notificar_laco_fim.
  unfold observadores_de in Hl. simpl. rewrite Hl. simpl. lia.
Qed.

(** The two concrete observers on an integer state. *)
Lemma atualizar_A_inteiro s w (n : Z) :
  estado_de w s = Some n →
  atualizar_A s w = (Ok tt, if (n <? 3)%Z then imprimir linha_A w else w).
Proof. intros Hest. unfold atualizar_A. rewrite Hest. by destruct (n <? 3)%Z. Qed.

Lemma atualizar_B_inteiro s w (n : Z) :
  estado_de w s = Some n →
  atualizar_B s w
  = (Ok tt, if ((n =? 0)%Z || (n >=? 2)%Z)%bool then imprimir linha_B w else w).
Proof.
  intros Hest. unfold atualizar_B. rewrite Hest.
  by destruct ((n =? 0)%Z || (n >=? 2)%Z)%bool.
Qed.

End ObserverEffects.

(** ** Registering, unregistering and notifying *)
Section ObserverExtras.
Import Observer.

Implicit Types (w : Mundo) (s o : Obj) (e : option Z) (l : list Obj).

(** X8.  With no subscriber [notificar] returns after printing its line,
    whatever the state of the subject (also when it was never assigned)
    and makes no call; [executar_logica_principal] then returns with the
    state set to the value drawn and its three lines printed. *)
Theorem X8_notificar_without_subscribers
    (classe_de : Obj → Observador) (fuel : nat) (r : Z) s w :
  observadores_de w s = [] →
  notificar classe_de fuel s w
  = (Ok tt, imprimir "Sujeito: Notificando observadores..." w, [])
  ∧ ∃ w', executar_logica_principal classe_de fuel r s w = (Ok tt, w', [])
          ∧ estado_de w' s = Some r
          ∧ observadores_de w' s = []
          ∧ saida w' = saida w ++ cabecalho r.
Proof.
  intros Hl. split; [by apply notificar_vazio|].
  unfold executar_logica_principal. rewrite notificar_vazio by done.
  eexists. split_and!; [done| |done|].
  - unfold estado_de. simpl. by rewrite lookup_insert_eq.
  - simpl. by rewrite <- !app_assoc.
Qed.

Lemma X8_notificar_without_subscribers_witness :
  notificar classes_demo 0 1 (snd (novo_Sujeito mundo_inicial))
  = (Ok tt, imprimir "Sujeito: Notificando observadores..."
              (snd (novo_Sujeito mundo_inicial)), []).
Proof.
  apply (X8_notificar_without_subscribers classes_demo 0%nat 0%Z 1%positive
           (snd (novo_Sujeito mundo_inicial))).
  reflexivity.
Defined.

(** X9.  On a subject whose state was never assigned, a pass whose first
    subscriber is either concrete observer (B as well as A: its equality
    test is false and its ordering test then raises) ends at that first
    call with [TypeError]: only the line of [notificar] was printed, the
    store is otherwise untouched, and no later subscriber is called. *)
Theorem X9_first_concrete_observer_raises_on_unset_state
    (classe_de : Obj → Observador) (fuel : nat) s w o (rest : list Obj) :
  observadores_de w s = o :: rest →
  concreto (classe_de o) = true →
  estado_de w s = None →
  notificar classe_de (S fuel) s w
  = (Raise TypeError, imprimir "Sujeito: Notificando observadores..." w,
     [mkVisita o s None]).
Proof.
  intros Hl Hc Hest. unfold notificar.
  rewrite (notificar_laco_passo classe_de fuel 0 s _ [] o)
    by (unfold observadores_de in *; simpl; by rewrite Hl).
  rewrite concreto_None; [|done|exact Hest].
  rewrite estado_de_imprimir. by rewrite Hest.
Qed.

Lemma X9_first_concrete_observer_raises_on_unset_state_witness :
  notificar classes_demo 3 1 (com_observadores [11; 10]%positive (snd demo_sem_estado))
  = (Raise TypeError,
     imprimir "Sujeito: Notificando observadores..."
       (com_observadores [11; 10]%positive (snd demo_sem_estado)),
     [mkVisita 11 1 None]).
Proof.
  apply (X9_first_concrete_observer_raises_on_unset_state classes_demo 2%nat 1%positive
           (com_observadores [11; 10]%positive (snd demo_sem_estado))
           11%positive [10%positive]).
  - reflexivity.
  - reflexivity.
  - reflexivity.
Defined.

(** X10.  [adicionar] does not look for the observer in the list: an
    observer registered twice is listed twice, and a pass then calls it
    twice, after the subscribers there were. *)
Theorem X10_registered_twice_notified_twice
    (classe_de : Obj → Observador) (fuel : nat) s w e o :
  estado_de w s = e →
  Forall (comportado classe_de s e) (observadores_de w s) →
  comportado classe_de s e o →
  (length (observadores_de w s) + 2 ≤ fuel)%nat →
  observadores_de (snd (adicionar s o (snd (adicionar s o w)))) s
  = observadores_de w s ++ [o; o]
  ∧ ∃ w', notificar classe_de fuel s (snd (adicionar s o (snd (adicionar s o w))))
          = (Ok tt, w', map (λ x, mkVisita x s e) (observadores_de w s ++ [o; o])).
Proof.
  intros Hest Hall Ho Hfuel.
  set (w2 := snd (adicionar s o (snd (adicionar s o w)))).
  assert (observadores_de w2 s = observadores_de w s ++ [o; o]) as Hl2.
  { unfold w2, adicionar, observadores_de. simpl. by rewrite <- app_assoc. }
  split; [done|].
  destruct (notificar_comportados classe_de s w2 e fuel) as (w' & Hrun & _).
  - done.
  - rewrite Hl2. apply Forall_app. split; [done|]. by repeat constructor.
  - rewrite Hl2, length_app. simpl. lia.
  - exists w'. by rewrite Hrun, Hl2.
Qed.

Lemma X10_registered_twice_notified_twice_witness :
  ∃ w', notificar classes_demo 3 1
          (snd (adicionar 1 10 (snd (adicionar 1 10 (snd (mundo_com [11%positive] 2))))))
        = (Ok tt, w', [mkVisita 11 1 (Some 2%Z); mkVisita 10 1 (Some 2%Z);
                       mkVisita 10 1 (Some 2%Z)]).
Proof.
  apply (X10_registered_twice_notified_twice classes_demo 3%nat 1%positive
           (snd (mundo_com [11%positive] 2)) (Some 2%Z) 10%positive).
  - reflexivity.
  - repeat constructor; by apply concreto_comportado.
  - by apply concreto_comportado.
  - simpl. lia.
Defined.

(** X11.  [adicionar] followed by [remover] of the same observer returns.
    When the observer was not registered, the subscriber list is back to
    what it was.  When it was, the pair drops its first, older entry and
    leaves the new one at the end: the observer has moved to the last
    place. *)
Theorem X11_adicionar_then_remover s o w :
  fst (remover s o (snd (adicionar s o w))) = Ok tt
  ∧ (o ∉ observadores_de w s →
     observadores_de (snd (remover s o (snd (adicionar s o w)))) s
     = observadores_de w s)
  ∧ (∀ l1 l2, observadores_de w s = l1 ++ o :: l2 → o ∉ l1 →
     observadores_de (snd (remover s o (snd (adicionar s o w)))) s
     = l1 ++ l2 ++ [o]).
Proof.
  set (w1 := snd (adicionar s o w)).
  assert (observadores_de w1 s = observadores_de w s ++ [o]) as Hl1 by done.
  split_and!.
  - destruct (decide (o ∈ observadores_de w s)) as [Hin|Hnin].
    + apply list_elem_of_split_l in Hin as (l1 & l2 & Hl & Hnin1).
      rewrite (remover_presente s o w1 l1 (l2 ++ [o])); [done| |done].
      rewrite Hl1, Hl. by rewrite <- app_assoc.
    + rewrite (remover_presente s o w1 (observadores_de w s) []); [done| |done].
      by rewrite Hl1.
  - intros Hnin.
    rewrite (remover_presente s o w1 (observadores_de w s) []); [|done|done].
    unfold observadores_de. simpl. by rewrite app_nil_r.
  - intros l1 l2 Hl Hnin.
    rewrite (remover_presente s o w1 l1 (l2 ++ [o])); [done| |done].
    rewrite Hl1, Hl. by rewrite <- app_assoc.
Qed.

Lemma X11_adicionar_then_remover_witness :
  observadores_de (snd (remover 1 12 (snd (adicionar 1 12
                     (snd (mundo_com [10; 11]%positive 2)))))) 1
  = [10; 11]%positive
  ∧ observadores_de (snd (remover 1 10 (snd (adicionar 1 10
                       (snd (mundo_com [10; 11]%positive 2)))))) 1
    = [11; 10]%positive.
Proof.
  destruct (X11_adicionar_then_remover 1%positive 12%positive
              (snd (mundo_com [10; 11]%positive 2))) as (_ & Hnovo & _).
  destruct (X11_adicionar_then_remover 1%positive 10%positive
              (snd (mundo_com [10; 11]%positive 2))) as (_ & _ & Hvelho).
  split.
  - apply Hnovo. intros Hin.
    apply elem_of_cons in Hin as [Heq|Hin]; [discriminate Heq|].
    apply list_elem_of_singleton in Hin. discriminate Hin.
  - apply (Hvelho [] [11%positive]); [reflexivity | apply not_elem_of_nil].
Defined.

(** X12.  The driver's step.  With an observer of class A and one of class
    B subscribed, in that order, [executar_logica_principal] returns for
    every value drawn, calls A then B with the new state, and prints its
    three lines followed by the reactions.  At least one observer reacts,
    whatever the value; both react exactly for 0 and 2, A alone exactly for
    1 (and for negative values, which [randrange(0, 10)] never draws), B
    alone exactly from 3 upwards. *)
Theorem X12_reactions_to_a_draw
    (classe_de : Obj → Observador) (fuel : nat) (r : Z) s w (a b : Obj) :
  observadores_de w s = [a; b] →
  classe_de a = ObservadorConcretoA → classe_de b = ObservadorConcretoB →
  (2 ≤ fuel)%nat →
  ∃ w' (reac : list string),
    executar_logica_principal classe_de fuel r s w
    = (Ok tt, w', [mkVisita a s (Some r); mkVisita b s (Some r)])
    ∧ saida w' = saida w ++ cabecalho r ++ reac
    ∧ reac ≠ []
    ∧ (reac = [linha_A; linha_B] ↔ r = 0%Z ∨ r = 2%Z)
    ∧ (reac = [linha_A] ↔ (r < 0)%Z ∨ r = 1%Z)
    ∧ (reac = [linha_B] ↔ (3 ≤ r)%Z).
Proof.
  intros Hl Ha Hb Hfuel.
  destruct fuel as [|[|fuel]]; [lia..|].
  eexists.
  exists ((if (r <? 3)%Z then [linha_A] else [])
          ++ (if ((r =? 0)%Z || (r >=? 2)%Z)%bool then [linha_B] else [])).
  unfold executar_logica_principal, notificar.
  match goal with
  | |- context [notificar_laco _ _ 0 s ?w0 []] => set (w1 := w0)
  end.
  assert (estado_de w1 s = Some r) as Hest1
    by (unfold estado_de, w1; simpl; by rewrite lookup_insert_eq).
  assert (saida w1 = saida w ++ cabecalho r) as Hout1
    by (unfold w1; simpl; by rewrite <- !app_assoc).
  rewrite (notificar_laco_passo classe_de (S fuel) 0 s w1 [] a)
    by (unfold observadores_de in *; simpl; by rewrite Hl).
  unfold atualizar at 1. rewrite Ha, (atualizar_A_inteiro s w1 r Hest1).
  set (w2 := if (r <? 3)%Z then imprimir linha_A w1 else w1).
  assert (estado_de w2 s = Some r) as Hest2 by (unfold w2; by destruct (r <? 3)%Z).
  assert (_observadores w2 = [a; b]) as Hl2
    by (unfold w2; destruct (r <? 3)%Z; simpl; exact Hl).
  rewrite (notificar_laco_passo classe_de fuel 1 s w2 _ b)
    by (unfold observadores_de; by rewrite Hl2).
  unfold atualizar at 1. rewrite Hb, (atualizar_B_inteiro s w2 r Hest2).
  set (w3 := if ((r =? 0)%Z || (r >=? 2)%Z)%bool then imprimir linha_B w2 else w2).
  assert (_observadores w3 = [a; b]) as Hl3
    by (unfold w3; destruct ((r =? 0)%Z || (r >=? 2)%Z)%bool; simpl; exact Hl2).
  rewrite notificar_laco_fim by (rewrite Hl3; simpl; lia).
  rewrite Hest1, Hest2. simpl.
  assert (saida w3 = saida w ++ cabecalho r
                     ++ (if (r <? 3)%Z then [linha_A] else [])
                     ++ (if ((r =? 0)%Z || (r >=? 2)%Z)%bool then [linha_B] else []))
    as Hout3.
  { unfold w3, w2. rewrite app_assoc, <- Hout1.
    destruct (r <? 3)%Z, ((r =? 0)%Z || (r >=? 2)%Z)%bool; simpl;
      by rewrite <- ?app_assoc, ?app_nil_r. }
  split_and!; [subst w3 w2 w1; reflexivity | exact Hout3 | ..];
    rewrite Z.geb_leb;
    destruct (Z.ltb_spec r 3), (Z.eqb_spec r 0), (Z.leb_spec 2 r); simpl;
    try done; try lia;
    (split; intros Hx; try reflexivity; try lia;
     try (exfalso; vm_compute in Hx; discriminate Hx)).
Qed.

Lemma X12_reactions_to_a_draw_witness :
  ∃ w' (reac : list string),
    executar_logica_principal classes_demo 2 2 1 (snd (mundo_com [10; 11]%positive 7))
    = (Ok tt, w', [mkVisita 10 1 (Some 2%Z); mkVisita 11 1 (Some 2%Z)])
    ∧ saida w' = saida (snd (mundo_com [10; 11]%positive 7)) ++ cabecalho 2 ++ reac
    ∧ reac ≠ []
    ∧ (reac = [linha_A; linha_B] ↔ 2%Z = 0%Z ∨ 2%Z = 2%Z)
    ∧ (reac = [linha_A] ↔ (2 < 0)%Z ∨ 2%Z = 1%Z)
    ∧ (reac = [linha_B] ↔ (3 ≤ 2)%Z).
Proof.
  apply (X12_reactions_to_a_draw classes_demo 2%nat 2%Z 1%positive
           (snd (mundo_com [10; 11]%positive 7)) 10%positive 11%positive).
  - reflexivity.
  - reflexivity.
  - reflexivity.
  - lia.
Defined.

(** X13.  The state belongs to the instance.  With concrete observers
    subscribed, [executar_logica_principal] on a subject sets that
    subject's state to the value drawn and leaves the state of every other
    subject, and the subscriber list, as they were. *)
Theorem X13_state_is_per_subject
    (classe_de : Obj → Observador) (fuel : nat) (r : Z) s w :
  Forall (λ o, concreto (classe_de o) = true) (observadores_de w s) →
  estado_de (snd (fst (executar_logica_principal classe_de fuel r s w))) s = Some r
  ∧ (∀ s2, s2 ≠ s →
       estado_de (snd (fst (executar_logica_principal classe_de fuel r s w))) s2
       = estado_de w s2)
  ∧ (∀ s2, observadores_de (snd (fst (executar_logica_principal classe_de fuel r s w))) s2
           = observadores_de w s2).
Proof.
  intros Hall. unfold executar_logica_principal, notificar.
  match goal with
  | |- context [notificar_laco _ _ 0 s ?w0 []] => set (w1 := w0)
  end.
  destruct (notificar_laco_concretos classe_de fuel 0 s w1 []) as [Hl Hm]; [done|].
  unfold estado_de, observadores_de. rewrite Hl, Hm. unfold w1. simpl.
  split_and!; [by rewrite lookup_insert_eq | | done].
  intros s2 Hne. by rewrite lookup_insert_ne.
Qed.

Lemma X13_state_is_per_subject_witness :
  estado_de (snd (fst (executar_logica_principal classes_demo 2 5 1
                         (snd (mundo_com [10; 11]%positive 7))))) 1 = Some 5%Z
  ∧ estado_de (snd (fst (executar_logica_principal classes_demo 2 5 2
                           (snd (mundo_com [10; 11]%positive 7))))) 1 = Some 7%Z.
Proof.
  split.
  - apply (X13_state_is_per_subject classes_demo 2%nat 5%Z 1%positive
             (snd (mundo_com [10; 11]%positive 7))).
    repeat constructor.
  - destruct (X13_state_is_per_subject classes_demo 2%nat 5%Z 2%positive
                (snd (mundo_com [10; 11]%positive 7))) as (_ & Hframe & _).
    + repeat constructor.
    + rewrite Hframe; [reflexivity | discriminate].
Defined.

(** X14.  Unregistering takes effect on the next pass.  After [remover]
    of an observer [a], a pass calls the remaining subscribers once each,
    in their order; if [a] was registered once, the pass does not call
    it. *)
Theorem X14_removed_observer_not_notified
    (classe_de : Obj → Observador) (fuel : nat) s w e (a : Obj) (l1 l2 : list Obj) :
  observadores_de w s = l1 ++ a :: l2 → a ∉ l1 →
  estado_de w s = e →
  Forall (comportado classe_de s e) (l1 ++ l2) →
  (length (l1 ++ l2) ≤ fuel)%nat →
  ∃ w', notificar classe_de fuel s (snd (remover s a w))
        = (Ok tt, w', map (λ o, mkVisita o s e) (l1 ++ l2))
        ∧ observadores_de w' s = l1 ++ l2
        ∧ (a ∉ l2 → a ∉ map observador (map (λ o, mkVisita o s e) (l1 ++ l2))).
Proof.
  intros Hl Hnin Hest Hall Hfuel.
  rewrite (remover_presente s a w l1 l2 Hl Hnin). simpl.
  set (w1 := imprimir "Sujeito: Observador removido." (com_observadores (l1 ++ l2) w)).
  destruct (notificar_comportados classe_de s w1 e fuel) as (w' & Hrun & Hl' & _);
    [done..|].
  exists w'. split_and!; [done | done |].
  intros Hnin2.
  assert (∀ l, map observador (map (λ o, mkVisita o s e) l) = l) as Hmap
    by (intros l; induction l as [|x l IH]; simpl; congruence).
  rewrite Hmap, elem_of_app. tauto.
Qed.

Lemma X14_removed_observer_not_notified_witness :
  ∃ w', notificar classes_demo 1 1 (snd (remover 1 10 (snd (mundo_com [10; 11]%positive 2))))
        = (Ok tt, w', [mkVisita 11 1 (Some 2%Z)])
        ∧ observadores_de w' 1 = [11%positive]
        ∧ (10%positive ∉ [11%positive] →
           10%positive ∉ map observador [mkVisita 11 1 (Some 2%Z)]).
Proof.
  apply (X14_removed_observer_not_notified classes_demo 1%nat 1%positive
           (snd (mundo_com [10; 11]%positive 2)) (Some 2%Z) 10%positive
           [] [11%positive]).
  - reflexivity.
  - apply not_elem_of_nil.
  - reflexivity.
  - repeat constructor; by apply concreto_comportado.
  - simpl. lia.
Defined.

End ObserverExtras.
